(** * auDeep: the Koe data set parser ([audeep/backend/parsers/koe.py])

    A shallow embedding of [KoeParser] and the properties of its
    validation, of its derived accessors and of [parse].

    The parser is a Python object with five cached attributes that are
    filled by the first call of [can_parse]; every other method calls
    [can_parse] first.  The embedding threads the object explicitly
    through a state-and-exception monad, and takes the content of the
    data set directory (what [glob], [os.path.isfile] and [read_csv]
    deliver) as an argument of every method, so that "does not read the
    file system" is "does not depend on that argument". *)

From Stdlib Require Import ZArith Ascii String List DecimalString.
From stdpp Require Import base decidable countable gmap sets list strings.

Local Open Scope string_scope.
Local Open Scope list_scope.
Local Open Scope Z_scope.

(** ** Python values held by the cells of the table

    [read_csv] infers a type per column; the rows of [DataFrame.values]
    then hold Python integers and strings.  The parser converts nothing:
    the cells reach its comparisons, its dictionary and its list index as
    they are.  Cells of the other inferred types (floating point, which is
    also what an empty field becomes, and booleans) are not part of this
    model. *)

Inductive cell : Type :=
  | CInt (z : Z)
  | CStr (s : string).

#[global] Instance cell_eq_dec : EqDecision cell.
Proof. solve_decision. Defined.

Definition cell_to_sum (c : cell) : Z + string :=
  match c with CInt z => inl z | CStr s => inr s end.

Definition cell_of_sum (x : Z + string) : cell :=
  match x with inl z => CInt z | inr s => CStr s end.

#[global] Instance cell_countable : Countable cell.
Proof.
  refine (inj_countable' cell_to_sum cell_of_sum _).
  intros []; reflexivity.
Defined.

(** [str(x)] *)
Definition py_str (c : cell) : string :=
  match c with
  | CStr s => s
  | CInt z => NilZero.string_of_int (Z.to_int z)
  end.

(** ** Strings: [str.lower], [str.endswith], [str.startswith], ordering

    Strings are sequences of bytes (UTF-8).  [lower] maps the ASCII
    capitals; that is all [name.lower().endswith(".wav")] depends on.  The
    order of [String.ltb], byte by byte, is the order of the code points
    that Python compares. *)

Definition ascii_lower (c : ascii) : ascii :=
  let n := nat_of_ascii c in
  if ((65 <=? n)%nat && (n <=? 90)%nat)%bool then ascii_of_nat (n + 32) else c.

Fixpoint lower (s : string) : string :=
  match s with
  | EmptyString => EmptyString
  | String c s' => String (ascii_lower c) (lower s')
  end.

Definition startswith (s pre : string) : bool := String.prefix pre s.

Definition endswith (s suf : string) : bool :=
  let n := String.length s in
  let k := String.length suf in
  ((k <=? n)%nat && String.eqb (String.substring (n - k) k s) suf)%bool.

(** [sorted(xs, key=f)] on string keys: a stable insertion sort. *)
Section Sorted.
Context {A : Type} (key : A -> string).

Fixpoint insert_sorted (x : A) (l : list A) : list A :=
  match l with
  | [] => [x]
  | y :: l' =>
      if String.ltb (key x) (key y) then x :: l
      else y :: insert_sorted x l'
  end.

Definition sorted (l : list A) : list A :=
  fold_left (fun acc x => insert_sorted x acc) l [].

End Sorted.

(** ** [os.path.join] (posixpath) and [pathlib.Path] *)

Definition os_path_join (a b : string) : string :=
  if startswith b "/" then b
  else if (String.eqb a "" || endswith a "/")%bool then String.append a b
  else String.append a (String.append "/" b).

(** A [Path] is kept as the string it was built from; [pathlib] also
    normalises it (it drops a leading [./], for one), which is not
    modelled. *)
Record Path : Type := mkPath { fspath : string }.

(** ** The data set directory as the parser sees it *)

(** One entry of [basedir.glob("*")]. *)
Record DirEntry : Type := mkEntry {
  name : string;
  is_file : bool
}.

(** The result of [read_csv(meta_file, sep='\t')]: the column names and
    the rows of [.values]; every row has one cell per column.  A file
    that pandas refuses to read is not part of this model. *)
Record DataFrame : Type := mkFrame {
  columns : list string;
  values : list (list cell);
  values_shape :
    forallb (fun r => Nat.eqb (length r) (length columns)) values = true
}.

(** [glob_star] is what [basedir.glob("*")] yields; [metadata_tsv] is
    [None] when [os.path.isfile(basedir/'metadata.tsv')] is false, and the
    parsed table otherwise.  A directory whose metadata file [read_csv]
    cannot read (an empty file, for one; [can_parse] does not catch what
    [read_csv] raises) is no value of this type: every statement below is
    about directories whose metadata file is absent or is read. *)
Record DatasetDir : Type := mkDir {
  glob_star : list DirEntry;
  metadata_tsv : option DataFrame
}.

(** ** Records produced by the parser *)

(** Modelled from the spec: [Split] of [audeep.backend.data.data_set];
    the markers of a split vector are TRAIN and VALID. *)
Inductive Split : Type := TRAIN | VALID.

#[global] Instance Split_eq_dec : EqDecision Split.
Proof. solve_decision. Defined.

(** Modelled from the spec: [Partition] of [audeep.backend.data.data_set];
    the parser only ever stores [None] in a partition field. *)
Inductive Partition : Type := P_TRAIN | P_DEVEL | P_TEST.

(** Modelled from the spec: [_InstanceMetadata] of
    [audeep.backend.parsers.base], a plain record of the six keyword
    arguments [parse] passes. *)
Record _InstanceMetadata : Type := mkInstanceMetadata {
  path : Path;
  filename : string;
  label_nominal : cell;
  label_numeric : cell;
  cv_folds : list Split;
  partition : option Partition
}.

(** A row as [can_parse] stores it:
    [(sid, filename, label, label_enum, fold)]. *)
Definition row : Type := cell * cell * cell * cell * cell.

Definition row_to_list (r : row) : list cell :=
  let '(sid, fname, label, label_enum, fold) := r in
  [sid; fname; label; label_enum; fold].

Definition row_filename (r : row) : cell :=
  let '(_, fname, _, _, _) := r in fname.
Definition row_label (r : row) : cell :=
  let '(_, _, label, _, _) := r in label.
Definition row_label_enum (r : row) : cell :=
  let '(_, _, _, label_enum, _) := r in label_enum.
Definition row_fold (r : row) : cell :=
  let '(_, _, _, _, fold) := r in fold.

(** ** The parser object *)

Record KoeParser : Type := mkKoeParser {
  _basedir : string;
  _data : option (list row);
  _metadata : option DataFrame;
  _label_map_cache : option (gmap cell cell);
  _can_parse_cache : option bool;
  _numfolds : option Z
}.

(** [KoeParser.__init__] *)
Definition __init__ (basedir : string) : KoeParser :=
  {| _basedir := basedir;
     _data := None;
     _metadata := None;
     _label_map_cache := None;
     _can_parse_cache := None;
     _numfolds := None |}.

Definition set_data (v : option (list row)) (p : KoeParser) : KoeParser :=
  {| _basedir := _basedir p; _data := v; _metadata := _metadata p;
     _label_map_cache := _label_map_cache p;
     _can_parse_cache := _can_parse_cache p; _numfolds := _numfolds p |}.

Definition set_metadata (v : option DataFrame) (p : KoeParser) : KoeParser :=
  {| _basedir := _basedir p; _data := _data p; _metadata := v;
     _label_map_cache := _label_map_cache p;
     _can_parse_cache := _can_parse_cache p; _numfolds := _numfolds p |}.

Definition set_label_map_cache (v : option (gmap cell cell)) (p : KoeParser)
  : KoeParser :=
  {| _basedir := _basedir p; _data := _data p; _metadata := _metadata p;
     _label_map_cache := v;
     _can_parse_cache := _can_parse_cache p; _numfolds := _numfolds p |}.

Definition set_can_parse_cache (v : option bool) (p : KoeParser) : KoeParser :=
  {| _basedir := _basedir p; _data := _data p; _metadata := _metadata p;
     _label_map_cache := _label_map_cache p;
     _can_parse_cache := v; _numfolds := _numfolds p |}.

Definition set_numfolds (v : option Z) (p : KoeParser) : KoeParser :=
  {| _basedir := _basedir p; _data := _data p; _metadata := _metadata p;
     _label_map_cache := _label_map_cache p;
     _can_parse_cache := _can_parse_cache p; _numfolds := v |}.

(** ** Exceptions and the method monad *)

Inductive exn : Type :=
  | IOError (msg : string)
  | TypeError
  | IndexError
  | ValueError
  | KeyError
  | AttributeError.

Inductive result (A : Type) : Type :=
  | Ok (a : A)
  | Raise (e : exn).
Arguments Ok {A} a.
Arguments Raise {A} e.

(** A method body: it runs on the object, returns or raises, and leaves
    the object as it is at that point. *)
Definition M (A : Type) : Type := KoeParser -> result A * KoeParser.

Definition ret {A} (a : A) : M A := fun p => (Ok a, p).
Definition raise {A} (e : exn) : M A := fun p => (Raise e, p).
Definition bind {A B} (m : M A) (k : A -> M B) : M B :=
  fun p => match m p with
           | (Ok a, p') => k a p'
           | (Raise e, p') => (Raise e, p')
           end.
Definition self : M KoeParser := fun p => (Ok p, p).
Definition assign (f : KoeParser -> KoeParser) : M unit :=
  fun p => (Ok tt, f p).

Declare Scope py_scope.
Delimit Scope py_scope with py.
Notation "'do' x <- m ; k" := (bind m (fun x => k))
  (at level 10, x name, m at level 100, k at level 200) : py_scope.
Notation "'do' ' pat <- m ; k" := (bind m (fun x => match x with pat => k end))
  (at level 10, pat pattern, m at level 100, k at level 200) : py_scope.
Notation "m ;; k" := (bind m (fun _ => k))
  (at level 100, k at level 200, right associativity) : py_scope.
Local Open Scope py_scope.

(** Iteration of a loop body over a list. *)
Fixpoint for_each {A} (body : A -> M unit) (l : list A) : M unit :=
  match l with
  | [] => ret tt
  | x :: l' => body x ;; for_each body l'
  end.

(** ** [KoeParser.can_parse] *)

Definition expected_header : list string :=
  ["id"; "filename"; "label"; "label_enum"; "fold"].

(** [[x.name for x in sorted([file for file in glob("*") if ...])]] *)
Definition wav_file_names (d : DatasetDir) : list string :=
  let files :=
    sorted name
      (List.filter (fun file => (is_file file
                                 && endswith (lower (name file)) ".wav")%bool)
                   (glob_star d)) in
  List.map name files.

(** [df[col]]: the cells of the column called [col]; [None] stands for
    the [KeyError] of a name that is no column. *)
Definition getitem (df : DataFrame) (col : string) : option (list cell) :=
  match list_find (fun c => c = col) (columns df) with
  | Some (i, _) => mapM (fun r : list cell => r !! i) (values df)
  | None => None
  end.

(** The tuple unpacking at the head of the loop over [.values]. *)
Definition unpack_row (r : list cell) : M row :=
  match r with
  | [sid; fname; label; label_enum; fold] =>
      ret (sid, fname, label, label_enum, fold)
  | _ => raise ValueError
  end.

(** The body of the loop of [can_parse]: the row is appended, its label
    is recorded unless it is a key already, and the fold is compared with
    the running maximum; [fold > self._numfolds] raises a [TypeError] when
    the fold cell is a string. *)
Definition can_parse_step (r : list cell) : M unit :=
  do '(sid, fname, label, label_enum, fold) <- unpack_row r;
  (do p <- self;
   match _data p with
   | Some data =>
       assign (set_data (Some (data ++ [(sid, fname, label, label_enum, fold)])))
   | None => raise AttributeError
   end) ;;
  (do p <- self;
   match _label_map_cache p with
   | Some m =>
       if decide (m !! label = None)
       then assign (set_label_map_cache (Some (<[label := label_enum]> m)))
       else ret tt
   | None => raise TypeError
   end) ;;
  (do p <- self;
   match fold, _numfolds p with
   | CInt f, Some n =>
       if f >? n then assign (set_numfolds (Some f)) else ret tt
   | _, _ => raise TypeError
   end).

Definition can_parse (d : DatasetDir) : M bool :=
  do p <- self;
  match _can_parse_cache p with
  | None =>
      let file_names := wav_file_names d in
      match metadata_tsv d with
      | None =>
          assign (set_can_parse_cache (Some false)) ;;
          ret false
      | Some df =>
          assign (set_metadata (Some df)) ;;
          let header := columns df in
          if negb (bool_decide (header = expected_header)) then
            assign (set_can_parse_cache (Some false)) ;;
            ret false
          else
            match getitem df "filename" with
            | None => raise KeyError
            | Some metadata_file_names =>
                if negb (bool_decide
                           (list_to_set (CStr <$> file_names)
                            = (list_to_set metadata_file_names : gset cell)))
                then
                  assign (set_can_parse_cache (Some false)) ;;
                  ret false
                else
                  assign (set_data (Some [])) ;;
                  assign (set_label_map_cache (Some ∅)) ;;
                  assign (set_numfolds (Some 0)) ;;
                  for_each can_parse_step (values df) ;;
                  (do p <- self;
                   match _numfolds p with
                   | Some n => assign (set_numfolds (Some (n + 1)))
                   | None => raise TypeError
                   end) ;;
                  assign (set_can_parse_cache (Some true)) ;;
                  ret true
            end
      end
  | Some b => ret b
  end.

(** ** The derived accessors and [KoeParser.parse] *)

Definition unable_to_parse (p : KoeParser) : exn :=
  IOError (String.append "unable to parse Koe dataset at " (_basedir p)).

(** [if not self.can_parse(): raise IOError(...)] *)
Definition require_can_parse (d : DatasetDir) : M unit :=
  do ok <- can_parse d;
  if negb ok then (do p <- self; raise (unable_to_parse p)) else ret tt.

Definition num_instances (d : DatasetDir) : M Z :=
  require_can_parse d ;;
  do p <- self;
  match _data p with
  | Some data => ret (Z.of_nat (length data))
  | None => raise TypeError
  end.

Definition num_folds (d : DatasetDir) : M (option Z) :=
  require_can_parse d ;;
  do p <- self;
  ret (_numfolds p).

Definition label_map (d : DatasetDir) : M (option (gmap cell cell)) :=
  require_can_parse d ;;
  do p <- self;
  ret (_label_map_cache p).

(** [[x] * n]: empty when [n] is not positive.  The list is built
    whatever its length: the [OverflowError] or [MemoryError] of the
    interpreter for a length it cannot allocate is not part of this model,
    so what is stated of the records of [parse] is stated of the records
    it returns. *)
Definition py_repeat {A} (x : A) (n : Z) : list A := replicate (Z.to_nat n) x.

(** [l[i] = x] on a Python list: a negative index counts from the end,
    an index outside [-len(l) <= i < len(l)] raises [IndexError]. *)
Definition py_setitem {A} (l : list A) (i : Z) (x : A) : result (list A) :=
  let n := Z.of_nat (length l) in
  if ((0 <=? i) && (i <? n))%bool then Ok (<[Z.to_nat i := x]> l)
  else if ((- n <=? i) && (i <? 0))%bool then Ok (<[Z.to_nat (i + n) := x]> l)
  else Raise IndexError.

(** The body of the loop of [parse], for one stored row: [os.path.join]
    rejects a file name that is no string, and a list is indexed by
    integers only. *)
Definition parse_step (p : KoeParser) (r : row) : result _InstanceMetadata :=
  let '(sid, fname, label, label_enum, fold) := r in
  match fname with
  | CInt _ => Raise TypeError
  | CStr fname_s =>
      let filepath := mkPath (os_path_join (_basedir p) fname_s) in
      match _numfolds p with
      | None => Raise TypeError
      | Some n =>
          let cv := py_repeat TRAIN n in
          match fold with
          | CStr _ => Raise TypeError
          | CInt f =>
              match py_setitem cv f VALID with
              | Raise e => Raise e
              | Ok cv' =>
                  Ok {| path := filepath;
                        filename := py_str fname;
                        label_nominal := label;
                        label_numeric := label_enum;
                        cv_folds := cv';
                        partition := None |}
              end
          end
      end
  end.

(** The loop of [parse]: [meta_list] grows by one record per row. *)
Fixpoint parse_loop (p : KoeParser) (data : list row)
    (meta_list : list _InstanceMetadata) : result (list _InstanceMetadata) :=
  match data with
  | [] => Ok meta_list
  | r :: data' =>
      match parse_step p r with
      | Raise e => Raise e
      | Ok instance_metadata =>
          parse_loop p data' (meta_list ++ [instance_metadata])
      end
  end.

Definition parse (d : DatasetDir) : M (list _InstanceMetadata) :=
  require_can_parse d ;;
  do p <- self;
  match _data p with
  | None => raise TypeError
  | Some data =>
      match parse_loop p data [] with
      | Ok meta_list => ret meta_list
      | Raise e => raise e
      end
  end.

(** ** Views of the table and of the directory used in the statements *)

(** A row of [.values] read as the five-tuple the loop unpacks. *)
Definition to_row (r : list cell) : option row :=
  match r with
  | [sid; fname; label; label_enum; fold] =>
      Some (sid, fname, label, label_enum, fold)
  | _ => None
  end.

Definition frame_rows (df : DataFrame) : list row := omap to_row (values df).

(** The rows of the metadata table of a directory, in table order; under
    the expected header these are all the rows of [.values]
    ([table_rows_values]). *)
Definition table_rows (d : DatasetDir) : list row :=
  match metadata_tsv d with
  | Some df => frame_rows df
  | None => []
  end.

(** The names of the audio files on disk: regular files whose name ends,
    case-insensitively, with [.wav]. *)
Definition is_audio_file (e : DirEntry) : bool :=
  (is_file e && endswith (lower (name e)) ".wav")%bool.

Definition audio_file_names (d : DatasetDir) : gset string :=
  list_to_set (name <$> List.filter is_audio_file (glob_star d)).

(** The [filename] values of the table. *)
Definition table_file_names (d : DatasetDir) : gset cell :=
  list_to_set (row_filename <$> table_rows d).

Definition is_int (c : cell) : bool :=
  match c with CInt _ => true | CStr _ => false end.

(** The accumulators of the loop of [can_parse], as functions of the rows
    read so far. *)
Definition add_label (m : gmap cell cell) (r : row) : gmap cell cell :=
  if decide (m !! row_label r = None)
  then <[row_label r := row_label_enum r]> m else m.

Definition bump_fold (n : Z) (r : row) : Z :=
  match row_fold r with
  | CInt f => if f >? n then f else n
  | CStr _ => n
  end.

(** The object after a call of [can_parse] that returned true. *)
Definition validated (basedir : string) (df : DataFrame) (rows : list row)
  : KoeParser :=
  {| _basedir := basedir;
     _data := Some rows;
     _metadata := Some df;
     _label_map_cache := Some (foldl add_label ∅ rows);
     _can_parse_cache := Some true;
     _numfolds := Some (foldl bump_fold 0 rows + 1) |}.

(** The file names on disk and in the table are the same set. *)
Definition names_agree (d : DatasetDir) : Prop :=
  (set_map CStr (audio_file_names d) : gset cell) = table_file_names d.

(** The object after a call of [can_parse] that returned false: only the
    result cache is written, and the table when it was read. *)
Definition rejected (d : DatasetDir) (p : KoeParser) : KoeParser :=
  match metadata_tsv d with
  | None => set_can_parse_cache (Some false) p
  | Some df => set_can_parse_cache (Some false) (set_metadata (Some df) p)
  end.

(** What a call of [can_parse] does on an object whose result cache is
    still unset, by what the directory holds. *)
Inductive can_parse_outcome (d : DatasetDir) (p : KoeParser)
  : result bool * KoeParser -> Prop :=
  | cp_no_metadata :
      metadata_tsv d = None ->
      can_parse_outcome d p (Ok false, rejected d p)
  | cp_bad_header df :
      metadata_tsv d = Some df ->
      columns df <> expected_header ->
      can_parse_outcome d p (Ok false, rejected d p)
  | cp_mismatch df :
      metadata_tsv d = Some df ->
      columns df = expected_header ->
      ~ names_agree d ->
      can_parse_outcome d p (Ok false, rejected d p)
  | cp_valid df :
      metadata_tsv d = Some df ->
      columns df = expected_header ->
      names_agree d ->
      Forall (fun r => is_int (row_fold r) = true) (table_rows d) ->
      can_parse_outcome d p (Ok true, validated (_basedir p) df (table_rows d))
  | cp_type_error df p' :
      metadata_tsv d = Some df ->
      columns df = expected_header ->
      names_agree d ->
      Exists (fun r => is_int (row_fold r) = false) (table_rows d) ->
      _can_parse_cache p' = None ->
      can_parse_outcome d p (Raise TypeError, p').

(** The split vector of a row of fold [f] when there are [n] folds. *)
Definition split_vector (n f : Z) : list Split :=
  <[Z.to_nat (f mod n) := VALID]> (py_repeat TRAIN n).

(** The fold value of a row whose fold cell is an integer. *)
Definition fold_index (r : row) : Z :=
  match row_fold r with CInt f => f | CStr _ => 0 end.

(** The record [parse] builds for a row whose file name is a string and
    whose fold indexes the split vector. *)
Definition instance_of (basedir : string) (n : Z) (r : row) : _InstanceMetadata :=
  {| path := mkPath (os_path_join basedir (py_str (row_filename r)));
     filename := py_str (row_filename r);
     label_nominal := row_label r;
     label_numeric := row_label_enum r;
     cv_folds := split_vector n (fold_index r);
     partition := None |}.

(** ** Sequences of calls on one parser object *)

Inductive method : Type :=
  | m_can_parse | m_num_instances | m_num_folds | m_label_map | m_parse.

Inductive retval : Type :=
  | RBool (b : bool)
  | RInt (z : Z)
  | RFolds (n : option Z)
  | RLabels (m : option (gmap cell cell))
  | RRecords (l : list _InstanceMetadata).

Definition call (m : method) (d : DatasetDir) : M retval :=
  match m with
  | m_can_parse => do b <- can_parse d; ret (RBool b)
  | m_num_instances => do z <- num_instances d; ret (RInt z)
  | m_num_folds => do n <- num_folds d; ret (RFolds n)
  | m_label_map => do l <- label_map d; ret (RLabels l)
  | m_parse => do l <- parse d; ret (RRecords l)
  end.

(** The object after a sequence of calls, each made while the directory
    holds what is paired with it; exceptions are caught by the caller. *)
Fixpoint run (calls : list (method * DatasetDir)) (p : KoeParser) : KoeParser :=
  match calls with
  | [] => p
  | (m, d) :: calls' => run calls' (snd (call m d p))
  end.

(** A stored row [parse] can turn into a record without a type error. *)
Definition row_ok (n : Z) (r : row) : Prop :=
  (exists s, row_filename r = CStr s) /\
  (exists f, row_fold r = CInt f /\ f < n).

(** The three ways a directory fails validation: no metadata file, a
    header other than the expected one, or file names on disk and in the
    table that are not the same set. *)
Definition structural_mismatch (d : DatasetDir) : Prop :=
  match metadata_tsv d with
  | None => True
  | Some df => columns df <> expected_header \/ ~ names_agree d
  end.

#[global] Instance names_agree_dec (d : DatasetDir) : Decision (names_agree d).
Proof. unfold names_agree. apply _. Defined.

#[global] Instance structural_mismatch_dec (d : DatasetDir) :
  Decision (structural_mismatch d).
Proof. unfold structural_mismatch. destruct (metadata_tsv d); apply _. Defined.

(** ** Example directories *)

(** Three audio files, a directory whose name ends in [.wav], and a table
    with folds 0, 2, 1 in which the label [dog] has two codes. *)
Definition df_three : DataFrame :=
  mkFrame expected_header
    [[CInt 1; CStr "a.wav"; CStr "dog"; CInt 5; CInt 0];
     [CInt 2; CStr "b.wav"; CStr "dog"; CInt 9; CInt 2];
     [CInt 3; CStr "c.WAV"; CStr "cat"; CInt 1; CInt 1]] eq_refl.

Definition dir_three : DatasetDir :=
  mkDir [mkEntry "c.WAV" true; mkEntry "metadata.tsv" true;
         mkEntry "a.wav" true; mkEntry "b.wav" true; mkEntry "old.wav" false]
        (Some df_three).

(** One audio file whose row has fold -1. *)
Definition df_negative_fold : DataFrame :=
  mkFrame expected_header
    [[CInt 1; CStr "a.wav"; CStr "dog"; CInt 0; CInt (-1)]] eq_refl.

Definition dir_negative_fold : DatasetDir :=
  mkDir [mkEntry "a.wav" true; mkEntry "metadata.tsv" true]
        (Some df_negative_fold).

(** One audio file whose row has fold -5. *)
Definition df_fold_below : DataFrame :=
  mkFrame expected_header
    [[CInt 1; CStr "a.wav"; CStr "dog"; CInt 0; CInt (-5)]] eq_refl.

Definition dir_fold_below : DatasetDir :=
  mkDir [mkEntry "a.wav" true; mkEntry "metadata.tsv" true]
        (Some df_fold_below).

(** One audio file whose row has a fold cell that is no number. *)
Definition df_string_fold : DataFrame :=
  mkFrame expected_header
    [[CInt 1; CStr "a.wav"; CStr "dog"; CInt 0; CStr "x"]] eq_refl.

Definition dir_string_fold : DatasetDir :=
  mkDir [mkEntry "a.wav" true; mkEntry "metadata.tsv" true]
        (Some df_string_fold).

(** No audio file and a table that is its header only. *)
Definition df_header_only : DataFrame := mkFrame expected_header [] eq_refl.

Definition dir_empty : DatasetDir :=
  mkDir [mkEntry "metadata.tsv" true; mkEntry "README" true]
        (Some df_header_only).

(** Two audio files whose rows have folds 0 and 5. *)
Definition df_fold_gap : DataFrame :=
  mkFrame expected_header
    [[CInt 1; CStr "a.wav"; CStr "dog"; CInt 0; CInt 0];
     [CInt 2; CStr "b.wav"; CStr "cat"; CInt 1; CInt 5]] eq_refl.

Definition dir_fold_gap : DatasetDir :=
  mkDir [mkEntry "a.wav" true; mkEntry "b.wav" true;
         mkEntry "metadata.tsv" true]
        (Some df_fold_gap).

(** An audio file and no metadata file. *)
Definition dir_no_metadata : DatasetDir :=
  mkDir [mkEntry "a.wav" true] None.

(** Two audio files and a table that names one of them and a third. *)
Definition df_other_names : DataFrame :=
  mkFrame expected_header
    [[CInt 1; CStr "a.wav"; CStr "dog"; CInt 0; CInt 0];
     [CInt 2; CStr "c.wav"; CStr "cat"; CInt 1; CInt 1]] eq_refl.

Definition dir_other_names : DatasetDir :=
  mkDir [mkEntry "a.wav" true; mkEntry "b.wav" true;
         mkEntry "metadata.tsv" true]
        (Some df_other_names).

(** Two audio files and a table whose header has two columns swapped. *)
Definition df_swapped_header : DataFrame :=
  mkFrame ["id"; "label"; "filename"; "label_enum"; "fold"]
    [[CInt 1; CStr "dog"; CStr "a.wav"; CInt 0; CInt 0];
     [CInt 2; CStr "cat"; CStr "b.wav"; CInt 1; CInt 1]] eq_refl.

Definition dir_swapped_header : DatasetDir :=
  mkDir [mkEntry "a.wav" true; mkEntry "b.wav" true;
         mkEntry "metadata.tsv" true]
        (Some df_swapped_header).

(** One audio file that two rows of the table name, with folds -2 and 1. *)
Definition df_repeated : DataFrame :=
  mkFrame expected_header
    [[CInt 1; CStr "a.wav"; CStr "dog"; CInt 0; CInt (-2)];
     [CInt 2; CStr "a.wav"; CStr "cat"; CInt 1; CInt 1]] eq_refl.

Definition dir_repeated : DatasetDir :=
  mkDir [mkEntry "a.wav" true; mkEntry "metadata.tsv" true]
        (Some df_repeated).

(** The three files of [dir_three] with the rows of its table in another
    order. *)
Definition df_three_reordered : DataFrame :=
  mkFrame expected_header
    [[CInt 2; CStr "b.wav"; CStr "dog"; CInt 9; CInt 2];
     [CInt 3; CStr "c.WAV"; CStr "cat"; CInt 1; CInt 1];
     [CInt 1; CStr "a.wav"; CStr "dog"; CInt 5; CInt 0]] eq_refl.

Definition dir_three_reordered : DatasetDir :=
  mkDir (glob_star dir_three) (Some df_three_reordered).

(** The calls [ms], all made while the directory holds [d]. *)
Definition in_dir (d : DatasetDir) (ms : list method) : list (method * DatasetDir) :=
  (fun m => (m, d)) <$> ms.

(** The objects a parser constructed on [b] can be after calls made while
    the directory holds [d]: as constructed, after a rejection, after a
    successful validation, or with its result cache still unset after
    calls that raised at a fold cell that is no integer. *)
Inductive reached (d : DatasetDir) (b : string) : KoeParser -> Prop :=
  | reached_init : reached d b (__init__ b)
  | reached_rejected :
      structural_mismatch d -> reached d b (rejected d (__init__ b))
  | reached_validated p :
      _can_parse_cache p = Some true -> reached d b p
  | reached_type_error p :
      _can_parse_cache p = None ->
      ~ structural_mismatch d ->
      Exists (fun r => is_int (row_fold r) = false) (table_rows d) ->
      reached d b p.

(** ** The statements that are compared with the code *)

(** [can_parse] is false on a structural mismatch and true otherwise. *)
Definition can_parse_decides (d : DatasetDir) (b : string) : Prop :=
  (structural_mismatch d -> fst (can_parse d (__init__ b)) = Ok false) /\
  (~ structural_mismatch d -> fst (can_parse d (__init__ b)) = Ok true).


(** A split vector for fold [f] among [n] folds: [n] markers, VALID at
    the position that is [f], TRAIN at every other position. *)
Definition split_marks (f n : Z) (cv : list Split) : Prop :=
  length cv = Z.to_nat n /\
  (exists j : nat, Z.of_nat j = f /\ cv !! j = Some VALID) /\
  (forall j : nat, (j < length cv)%nat -> Z.of_nat j <> f -> cv !! j = Some TRAIN).

(** After a successful validation every record [parse] returns has the
    split vector of its row's fold. *)
Definition split_vectors_marked (d : DatasetDir) (b : string) : Prop :=
  forall p' recs,
    can_parse d (__init__ b) = (Ok true, p') ->
    fst (parse d (__init__ b)) = Ok recs ->
    exists n,
      fst (num_folds d (__init__ b)) = Ok (Some n) /\
      Forall2 (fun r rec => exists f, row_fold r = CInt f
                                      /\ split_marks f n (cv_folds rec))
              (table_rows d) recs.




(** Whenever [can_parse] returns false, on a parser constructed on [b]
    and called any number of times before, the row list, the label map
    and the fold count are unset. *)
Definition false_leaves_unset (calls : list (method * DatasetDir))
    (b : string) (d : DatasetDir) : Prop :=
  forall p',
    can_parse d (run calls (__init__ b)) = (Ok false, p') ->
    _data p' = None /\ _label_map_cache p' = None /\ _numfolds p' = None.

(** * Properties *)

(** ** Lists, strings and sets *)

Lemma insert_sorted_perm {A} (key : A -> string) x (l : list A) :
  insert_sorted key x l ≡ₚ x :: l.
Proof.
  induction l as [|y l IH]; simpl; [done|].
  destruct (String.ltb (key x) (key y)); [done|].
  rewrite IH. apply Permutation_swap.
Qed.

Lemma sorted_perm {A} (key : A -> string) (l : list A) : sorted key l ≡ₚ l.
Proof.
  unfold sorted.
  assert (G : forall acc, fold_left (fun acc x => insert_sorted key x acc) l acc
                          ≡ₚ (acc ++ l)).
  { induction l as [|x l IH]; intros acc; simpl.
    - by rewrite app_nil_r.
    - rewrite IH, insert_sorted_perm. simpl. apply Permutation_middle. }
  apply (G []).
Qed.

Lemma wav_file_names_set (d : DatasetDir) :
  list_to_set (wav_file_names d) = audio_file_names d.
Proof.
  unfold wav_file_names, audio_file_names.
  apply list_to_set_perm_L.
  change (List.map name) with (fmap (M:=list) name).
  by rewrite sorted_perm.
Qed.

Lemma list_to_set_CStr (l : list string) :
  (list_to_set (CStr <$> l) : gset cell) = set_map CStr (list_to_set l : gset string).
Proof.
  induction l as [|x l IH].
  - by rewrite fmap_nil, !list_to_set_nil, set_map_empty.
  - by rewrite fmap_cons, !list_to_set_cons, IH, set_map_union_L,
      set_map_singleton_L.
Qed.

(** ** The table as a list of five-tuples *)

Lemma rows_of_values (vs : list (list cell)) :
  forallb (fun r => Nat.eqb (length r) 5) vs = true ->
  row_to_list <$> omap to_row vs = vs.
Proof.
  induction vs as [|r vs IH]; intros H; [done|].
  simpl in H. apply andb_true_iff in H as [Hr Hvs].
  apply Nat.eqb_eq in Hr.
  destruct r as [|a [|b [|c [|e [|f [|g r]]]]]]; simpl in Hr; try lia.
  simpl. f_equal. by apply IH.
Qed.

Lemma frame_rows_values (df : DataFrame) :
  columns df = expected_header ->
  row_to_list <$> frame_rows df = values df.
Proof.
  intros H. apply rows_of_values.
  pose proof (values_shape df) as S. by rewrite H in S.
Qed.

Lemma table_rows_values (d : DatasetDir) (df : DataFrame) :
  metadata_tsv d = Some df ->
  columns df = expected_header ->
  row_to_list <$> table_rows d = values df.
Proof.
  intros Hdf Hh. unfold table_rows. rewrite Hdf. by apply frame_rows_values.
Qed.

Lemma mapM_filename_column (rows : list row) :
  mapM (fun r : list cell => r !! 1%nat) (row_to_list <$> rows)
  = Some (row_filename <$> rows).
Proof.
  induction rows as [|[[[[sid fname] label] label_enum] fold] rows IH]; [done|].
  rewrite !fmap_cons. simpl in *. by rewrite IH.
Qed.

Lemma getitem_filename (df : DataFrame) :
  columns df = expected_header ->
  getitem df "filename" = Some (row_filename <$> frame_rows df).
Proof.
  intros H. unfold getitem. rewrite H.
  replace (list_find (fun c : string => c = "filename") expected_header)
    with (Some (1%nat, "filename")) by (by vm_compute).
  rewrite <- (frame_rows_values df H). apply mapM_filename_column.
Qed.

(** ** The loop of [can_parse] *)

Lemma can_parse_step_int (p : KoeParser) data m n (r : row) :
  _data p = Some data ->
  _label_map_cache p = Some m ->
  _numfolds p = Some n ->
  is_int (row_fold r) = true ->
  can_parse_step (row_to_list r) p =
  (Ok tt, {| _basedir := _basedir p;
             _data := Some (data ++ [r]);
             _metadata := _metadata p;
             _label_map_cache := Some (add_label m r);
             _can_parse_cache := _can_parse_cache p;
             _numfolds := Some (bump_fold n r) |}).
Proof.
  destruct p as [b0 d0 md0 lm0 cc0 nf0].
  destruct r as [[[[sid fname] label] label_enum] fold].
  simpl. intros -> -> -> Hf.
  destruct fold as [f|s]; [|done].
  unfold can_parse_step, add_label, bump_fold, bind, self, assign, ret; simpl.
  destruct (decide (m !! label = None)); simpl;
    destruct (f >? n); reflexivity.
Qed.

Lemma can_parse_step_str (p : KoeParser) data m n (r : row) :
  _data p = Some data ->
  _label_map_cache p = Some m ->
  _numfolds p = Some n ->
  is_int (row_fold r) = false ->
  exists p', can_parse_step (row_to_list r) p = (Raise TypeError, p')
             /\ _can_parse_cache p' = _can_parse_cache p.
Proof.
  destruct p as [b0 d0 md0 lm0 cc0 nf0].
  destruct r as [[[[sid fname] label] label_enum] fold].
  simpl. intros -> -> -> Hf.
  destruct fold as [f|s]; [done|].
  unfold can_parse_step, bind, self, assign, ret, raise; simpl.
  destruct (decide (m !! label = None)); simpl; eauto.
Qed.

Lemma for_each_can_parse_step_int (rows : list row) :
  forall (p : KoeParser) data m n,
    _data p = Some data ->
    _label_map_cache p = Some m ->
    _numfolds p = Some n ->
    Forall (fun r => is_int (row_fold r) = true) rows ->
    for_each can_parse_step (row_to_list <$> rows) p =
    (Ok tt, {| _basedir := _basedir p;
               _data := Some (data ++ rows);
               _metadata := _metadata p;
               _label_map_cache := Some (foldl add_label m rows);
               _can_parse_cache := _can_parse_cache p;
               _numfolds := Some (foldl bump_fold n rows) |}).
Proof.
  induction rows as [|r rows IH]; intros p data m n Hd Hm Hn Hall.
  - destruct p; simpl in *; subst. by rewrite app_nil_r.
  - apply Forall_cons in Hall as [Hr Hall].
    rewrite fmap_cons. cbn [for_each]. unfold bind at 1.
    rewrite (can_parse_step_int p data m n r Hd Hm Hn Hr).
    rewrite (IH _ (data ++ [r]) (add_label m r) (bump_fold n r));
      try done.
    simpl. by rewrite <- app_assoc.
Qed.

Lemma for_each_can_parse_step_str (rows : list row) :
  forall (p : KoeParser) data m n,
    _data p = Some data ->
    _label_map_cache p = Some m ->
    _numfolds p = Some n ->
    Exists (fun r => is_int (row_fold r) = false) rows ->
    exists p', for_each can_parse_step (row_to_list <$> rows) p
               = (Raise TypeError, p')
               /\ _can_parse_cache p' = _can_parse_cache p.
Proof.
  induction rows as [|r rows IH]; intros p data m n Hd Hm Hn Hex.
  - by apply Exists_nil in Hex.
  - rewrite fmap_cons. cbn [for_each]. unfold bind at 1.
    destruct (is_int (row_fold r)) eqn:Hr.
    + rewrite (can_parse_step_int p data m n r Hd Hm Hn Hr).
      apply Exists_cons in Hex as [Hex|Hex]; [congruence|].
      destruct (IH {| _basedir := _basedir p;
                      _data := Some (data ++ [r]);
                      _metadata := _metadata p;
                      _label_map_cache := Some (add_label m r);
                      _can_parse_cache := _can_parse_cache p;
                      _numfolds := Some (bump_fold n r) |}
                  (data ++ [r]) (add_label m r) (bump_fold n r))
        as (p' & -> & Hc); eauto.
    + destruct (can_parse_step_str p data m n r Hd Hm Hn Hr) as (p' & -> & Hc).
      eauto.
Qed.

(** ** [can_parse] on an object whose result cache is unset *)

Lemma names_agree_decide (d : DatasetDir) (df : DataFrame) :
  metadata_tsv d = Some df ->
  (list_to_set (CStr <$> wav_file_names d)
   = (list_to_set (row_filename <$> frame_rows df) : gset cell))
  <-> names_agree d.
Proof.
  intros Hdf. unfold names_agree, table_file_names, table_rows.
  by rewrite Hdf, list_to_set_CStr, wav_file_names_set.
Qed.

Lemma Forall_Exists_is_int (rows : list row) :
  Forall (fun r => is_int (row_fold r) = true) rows
  \/ Exists (fun r => is_int (row_fold r) = false) rows.
Proof.
  induction rows as [|r rows [IH|IH]]; [by left | |].
  - destruct (is_int (row_fold r)) eqn:Hr.
    + left. by constructor.
    + right. by left.
  - right. by right.
Qed.

Lemma can_parse_unset (d : DatasetDir) (p : KoeParser) :
  _can_parse_cache p = None ->
  can_parse_outcome d p (can_parse d p).
Proof.
  intros Hc. unfold can_parse. unfold bind at 1, self at 1. rewrite Hc.
  destruct (metadata_tsv d) as [df|] eqn:Hdf.
  2:{ replace (bind _ _ p) with (Ok false, rejected d p)
        by (unfold rejected; by rewrite Hdf).
      exact (cp_no_metadata d p Hdf). }
  unfold bind at 1, assign at 1.
  destruct (bool_decide (columns df = expected_header)) eqn:Hh; cbn [negb].
  2:{ apply bool_decide_eq_false in Hh.
      replace (bind _ _ _) with (Ok false, rejected d p)
        by (unfold rejected; by rewrite Hdf).
      by eapply cp_bad_header. }
  apply bool_decide_eq_true in Hh.
  rewrite (getitem_filename df Hh).
  destruct (bool_decide (_ = _)) eqn:Hs; cbn [negb].
  2:{ apply bool_decide_eq_false in Hs.
      rewrite (names_agree_decide d df Hdf) in Hs.
      replace (bind _ _ _) with (Ok false, rejected d p)
        by (unfold rejected; by rewrite Hdf).
      by eapply cp_mismatch. }
  apply bool_decide_eq_true in Hs.
  rewrite (names_agree_decide d df Hdf) in Hs.
  rewrite <- (frame_rows_values df Hh).
  assert (Hrows : table_rows d = frame_rows df)
    by (unfold table_rows; by rewrite Hdf).
  rewrite <- Hrows.
  do 3 (unfold bind at 1, assign at 1).
  unfold bind at 1.
  destruct (Forall_Exists_is_int (table_rows d)) as [Hall|Hex].
  - erewrite for_each_can_parse_step_int; [|reflexivity..|exact Hall].
    replace (bind _ _ _) with (Ok true, validated (_basedir p) df (table_rows d)).
    + by eapply cp_valid.
    + destruct p; simpl in *; reflexivity.
  - edestruct for_each_can_parse_step_str as (p' & -> & Hc');
      [reflexivity..|exact Hex|].
    eapply cp_type_error; eauto. rewrite Hc'. destruct p; simpl in *; done.
Qed.

Lemma can_parse_cached (d : DatasetDir) (p : KoeParser) (b : bool) :
  _can_parse_cache p = Some b ->
  can_parse d p = (Ok b, p).
Proof. intros Hc. unfold can_parse, bind, self. by rewrite Hc. Qed.

(** ** The guard of the accessors *)

Lemma require_can_parse_true (d : DatasetDir) (p p' : KoeParser) :
  can_parse d p = (Ok true, p') ->
  require_can_parse d p = (Ok tt, p').
Proof. intros H. unfold require_can_parse, bind. by rewrite H. Qed.


(** ** The fold count accumulator *)

Lemma bump_fold_max (n : Z) (r : row) (f : Z) :
  row_fold r = CInt f -> bump_fold n r = Z.max n f.
Proof.
  intros H. unfold bump_fold. rewrite H.
  destruct (f >? n) eqn:E; lia.
Qed.

Lemma bump_fold_ge (n : Z) (r : row) : n <= bump_fold n r.
Proof.
  unfold bump_fold. destruct (row_fold r) as [f|s]; [|lia].
  destruct (f >? n) eqn:E; lia.
Qed.

Lemma foldl_bump_fold_ge (rows : list row) :
  forall n, n <= foldl bump_fold n rows.
Proof.
  induction rows as [|r rows IH]; intros n; simpl; [lia|].
  pose proof (bump_fold_ge n r). pose proof (IH (bump_fold n r)). lia.
Qed.

Lemma foldl_bump_fold_upper (rows : list row) :
  forall n r f, r ∈ rows -> row_fold r = CInt f ->
                f <= foldl bump_fold n rows.
Proof.
  induction rows as [|r0 rows IH]; intros n r f Hin Hf.
  - by apply elem_of_nil in Hin.
  - simpl. apply elem_of_cons in Hin as [->|Hin].
    + pose proof (foldl_bump_fold_ge rows (bump_fold n r0)).
      rewrite (bump_fold_max n r0 f Hf) in *. lia.
    + by eapply IH.
Qed.

Lemma foldl_bump_fold_attained (rows : list row) :
  forall n, foldl bump_fold n rows = n
            \/ exists r, r ∈ rows /\ row_fold r = CInt (foldl bump_fold n rows).
Proof.
  induction rows as [|r0 rows IH]; intros n; simpl; [by left|].
  destruct (IH (bump_fold n r0)) as [E|(r & Hin & Hr)].
  - rewrite E. unfold bump_fold.
    destruct (row_fold r0) as [f|s] eqn:Hf; [|by left].
    destruct (f >? n); [|by left].
    right. exists r0. split; [apply elem_of_cons; by left|done].
  - right. exists r. split; [apply elem_of_cons; by right|done].
Qed.

(** ** [parse]: one row, then the loop *)

Lemma py_setitem_in_range {A} (l : list A) (i : Z) (x : A) :
  - Z.of_nat (length l) <= i < Z.of_nat (length l) ->
  py_setitem l i x = Ok (<[Z.to_nat (i mod Z.of_nat (length l)) := x]> l).
Proof.
  intros Hi. unfold py_setitem. cbv zeta.
  destruct (Z.leb_spec 0 i).
  - destruct (Z.ltb_spec i (Z.of_nat (length l))); [|lia].
    simpl. by rewrite Z.mod_small by lia.
  - simpl.
    destruct (Z.leb_spec (- Z.of_nat (length l)) i); [|lia].
    destruct (Z.ltb_spec i 0); [|lia].
    simpl. do 3 f_equal.
    apply Z.mod_unique with (q := -1); lia.
Qed.

Lemma py_setitem_below {A} (l : list A) (i : Z) (x : A) :
  i < - Z.of_nat (length l) ->
  py_setitem l i x = Raise IndexError.
Proof.
  intros Hi. unfold py_setitem. cbv zeta.
  destruct (Z.leb_spec 0 i); [lia|].
  destruct (Z.leb_spec (- Z.of_nat (length l)) i); [lia|]. done.
Qed.

Lemma parse_step_in_range (p : KoeParser) (r : row) (s : string) (n f : Z) :
  _numfolds p = Some n ->
  row_filename r = CStr s ->
  row_fold r = CInt f ->
  - n <= f < n ->
  parse_step p r =
  Ok {| path := mkPath (os_path_join (_basedir p) s);
        filename := s;
        label_nominal := row_label r;
        label_numeric := row_label_enum r;
        cv_folds := split_vector n f;
        partition := None |}.
Proof.
  destruct r as [[[[sid fname] label] label_enum] fold]. simpl.
  intros Hn -> -> Hf. rewrite Hn.
  assert (Hlen : Z.of_nat (length (py_repeat TRAIN n)) = n)
    by (unfold py_repeat; rewrite length_replicate; lia).
  rewrite py_setitem_in_range by (rewrite Hlen; lia).
  by rewrite Hlen.
Qed.

Lemma parse_step_below (p : KoeParser) (r : row) (s : string) (n f : Z) :
  _numfolds p = Some n ->
  row_filename r = CStr s ->
  row_fold r = CInt f ->
  0 <= n -> f < - n ->
  parse_step p r = Raise IndexError.
Proof.
  destruct r as [[[[sid fname] label] label_enum] fold]. simpl.
  intros Hn -> -> Hn0 Hf. rewrite Hn.
  rewrite py_setitem_below; [done|].
  unfold py_repeat. rewrite length_replicate. lia.
Qed.

Lemma parse_loop_ok (p : KoeParser) (rows : list row) :
  forall recs acc,
    Forall2 (fun r rec => parse_step p r = Ok rec) rows recs ->
    parse_loop p rows acc = Ok (acc ++ recs).
Proof.
  induction rows as [|r rows IH]; intros recs acc H.
  - apply Forall2_nil_inv_l in H as ->. by rewrite app_nil_r.
  - apply Forall2_cons_inv_l in H as (rec & recs' & Hr & H & ->).
    simpl. rewrite Hr, (IH recs' _ H). by rewrite <- app_assoc.
Qed.

(** ** What a successful validation establishes *)

Lemma can_parse_true_inv (d : DatasetDir) (p p' : KoeParser) :
  _can_parse_cache p = None ->
  can_parse d p = (Ok true, p') ->
  exists df,
    metadata_tsv d = Some df /\ columns df = expected_header /\
    names_agree d /\
    Forall (fun r => is_int (row_fold r) = true) (table_rows d) /\
    p' = validated (_basedir p) df (table_rows d).
Proof.
  intros Hc H. pose proof (can_parse_unset d p Hc) as O. rewrite H in O.
  inversion O; subst. eauto 10.
Qed.

Lemma can_parse_false_inv (d : DatasetDir) (p p' : KoeParser) :
  _can_parse_cache p = None ->
  can_parse d p = (Ok false, p') ->
  p' = rejected d p /\
  (metadata_tsv d = None \/
   exists df, metadata_tsv d = Some df /\
              (columns df <> expected_header \/ ~ names_agree d)).
Proof.
  intros Hc H. pose proof (can_parse_unset d p Hc) as O. rewrite H in O.
  inversion O; subst; eauto 10.
Qed.

Lemma names_agree_filename (d : DatasetDir) (r : row) :
  names_agree d -> r ∈ table_rows d ->
  exists s, row_filename r = CStr s /\ s ∈ audio_file_names d.
Proof.
  intros Ha Hr.
  assert (Hin : row_filename r ∈ table_file_names d).
  { unfold table_file_names. apply elem_of_list_to_set.
    apply list_elem_of_fmap. eauto. }
  rewrite <- Ha in Hin. apply elem_of_map in Hin as (s & -> & Hs). eauto.
Qed.

Lemma validated_rows_ok (d : DatasetDir) :
  names_agree d ->
  Forall (fun r => is_int (row_fold r) = true) (table_rows d) ->
  Forall (row_ok (foldl bump_fold 0 (table_rows d) + 1)) (table_rows d).
Proof.
  intros Ha Hall. apply Forall_forall. intros r Hr. split.
  - destruct (names_agree_filename d r Ha Hr) as (s & Hs & _). eauto.
  - rewrite Forall_forall in Hall. specialize (Hall r Hr).
    destruct (row_fold r) as [f|s] eqn:Hf; [|done].
    exists f. split; [done|].
    pose proof (foldl_bump_fold_upper (table_rows d) 0 r f Hr Hf). lia.
Qed.

Lemma parse_step_instance_of (p : KoeParser) (n : Z) (r : row) :
  _numfolds p = Some n -> row_ok n r -> - n <= fold_index r ->
  parse_step p r = Ok (instance_of (_basedir p) n r).
Proof.
  intros Hn [(s & Hs) (f & Hf & Hlt)] Hge.
  unfold fold_index in Hge. rewrite Hf in Hge.
  rewrite (parse_step_in_range p r s n f Hn Hs Hf) by lia.
  unfold instance_of, fold_index. by rewrite Hs, Hf.
Qed.

Lemma parse_loop_in_range (p : KoeParser) (n : Z) (rows : list row) :
  _numfolds p = Some n ->
  Forall (row_ok n) rows ->
  Forall (fun r => - n <= fold_index r) rows ->
  forall acc, parse_loop p rows acc
              = Ok (acc ++ (instance_of (_basedir p) n <$> rows)).
Proof.
  intros Hn Hok Hge acc. apply parse_loop_ok.
  apply Forall2_fmap_r, Forall2_same_length_lookup_2; [done|].
  intros i r r' Hi Hi'. assert (r' = r) as -> by congruence.
  apply parse_step_instance_of; [done|..].
  - by eapply Forall_lookup_1 in Hok.
  - by eapply Forall_lookup_1 in Hge.
Qed.

Lemma parse_loop_below (p : KoeParser) (n : Z) (rows : list row) :
  _numfolds p = Some n -> 0 <= n ->
  Forall (row_ok n) rows ->
  Exists (fun r => fold_index r < - n) rows ->
  forall acc, parse_loop p rows acc = Raise IndexError.
Proof.
  intros Hn Hn0. induction rows as [|r rows IH]; intros Hok Hex acc.
  - by apply Exists_nil in Hex.
  - apply Forall_cons in Hok as [Hr Hok]. simpl.
    destruct (Z.lt_ge_cases (fold_index r) (- n)) as [Hlt|Hge].
    + destruct Hr as [(s & Hs) (f & Hf & _)].
      unfold fold_index in Hlt. rewrite Hf in Hlt.
      by rewrite (parse_step_below p r s n f Hn Hs Hf Hn0 Hlt).
    + rewrite (parse_step_instance_of p n r Hn Hr Hge).
      apply Exists_cons in Hex as [Hex|Hex]; [lia|]. by apply IH.
Qed.

(** ** The three outcomes of [can_parse], from what the directory holds *)

Lemma Forall_Exists_is_int_absurd (rows : list row) :
  Forall (fun r => is_int (row_fold r) = true) rows ->
  Exists (fun r => is_int (row_fold r) = false) rows -> False.
Proof.
  intros Hall Hex. apply Exists_exists in Hex as (r & Hr & Hf).
  rewrite Forall_forall in Hall. specialize (Hall r Hr). congruence.
Qed.

Lemma can_parse_rejects (d : DatasetDir) (p : KoeParser) :
  _can_parse_cache p = None ->
  structural_mismatch d ->
  can_parse d p = (Ok false, rejected d p).
Proof.
  intros Hc Hm. pose proof (can_parse_unset d p Hc) as O.
  unfold structural_mismatch in Hm.
  remember (can_parse d p) as res eqn:E.
  destruct O as [H|df H Hh|df H Hh Ha|df H Hh Ha Hall|df p' H Hh Ha Hex Hc'];
    try done; rewrite H in Hm; by destruct Hm.
Qed.

Lemma can_parse_accepts (d : DatasetDir) (p : KoeParser) (df : DataFrame) :
  _can_parse_cache p = None ->
  metadata_tsv d = Some df ->
  ~ structural_mismatch d ->
  Forall (fun r => is_int (row_fold r) = true) (table_rows d) ->
  can_parse d p = (Ok true, validated (_basedir p) df (table_rows d)).
Proof.
  intros Hc Hdf Hm Hall. pose proof (can_parse_unset d p Hc) as O.
  unfold structural_mismatch in Hm. rewrite Hdf in Hm.
  remember (can_parse d p) as res eqn:E.
  destruct O as [H|df' H Hh|df' H Hh Ha|df' H Hh Ha Hall'|df' p' H Hh Ha Hex Hc'].
  - congruence.
  - destruct Hm. left. congruence.
  - destruct Hm. by right.
  - congruence.
  - destruct (Forall_Exists_is_int_absurd _ Hall Hex).
Qed.

Lemma can_parse_type_error (d : DatasetDir) (p : KoeParser) :
  _can_parse_cache p = None ->
  ~ structural_mismatch d ->
  Exists (fun r => is_int (row_fold r) = false) (table_rows d) ->
  exists p', can_parse d p = (Raise TypeError, p') /\ _can_parse_cache p' = None.
Proof.
  intros Hc Hm Hex. pose proof (can_parse_unset d p Hc) as O.
  unfold structural_mismatch in Hm.
  remember (can_parse d p) as res eqn:E.
  destruct O as [H|df' H Hh|df' H Hh Ha|df' H Hh Ha Hall'|df' p' H Hh Ha Hex' Hc'];
    rewrite H in Hm.
  - by destruct Hm.
  - destruct Hm. by left.
  - destruct Hm. by right.
  - destruct (Forall_Exists_is_int_absurd _ Hall' Hex).
  - eauto.
Qed.

(** ** The accessors after a call of [can_parse] *)

Lemma num_instances_after (d : DatasetDir) (p p' : KoeParser) rows :
  can_parse d p = (Ok true, p') -> _data p' = Some rows ->
  num_instances d p = (Ok (Z.of_nat (length rows)), p').
Proof.
  intros H Hd. unfold num_instances. unfold bind at 1.
  rewrite (require_can_parse_true d p p' H).
  unfold bind, self. by rewrite Hd.
Qed.

Lemma num_folds_after (d : DatasetDir) (p p' : KoeParser) :
  can_parse d p = (Ok true, p') ->
  num_folds d p = (Ok (_numfolds p'), p').
Proof.
  intros H. unfold num_folds. unfold bind at 1.
  by rewrite (require_can_parse_true d p p' H).
Qed.

Lemma label_map_after (d : DatasetDir) (p p' : KoeParser) :
  can_parse d p = (Ok true, p') ->
  label_map d p = (Ok (_label_map_cache p'), p').
Proof.
  intros H. unfold label_map. unfold bind at 1.
  by rewrite (require_can_parse_true d p p' H).
Qed.

Lemma parse_after (d : DatasetDir) (p p' : KoeParser) rows :
  can_parse d p = (Ok true, p') -> _data p' = Some rows ->
  parse d p = match parse_loop p' rows [] with
              | Ok meta_list => (Ok meta_list, p')
              | Raise e => (Raise e, p')
              end.
Proof.
  intros H Hd. unfold parse. unfold bind at 1.
  rewrite (require_can_parse_true d p p' H).
  unfold bind, self. rewrite Hd. by destruct (parse_loop p' rows []).
Qed.


(** ** The fold count (C2) *)

(** C2: for every data set on which validation succeeds and whose table
    has at least one row, all fold values being non-negative integers,
    [num_folds] is one plus the largest fold value of the table: some row
    has that value, no row has a larger one, and whether the values below
    it occur plays no part. *)
Theorem num_folds_is_max_plus_one (d : DatasetDir) (b : string) (p' : KoeParser) :
  can_parse d (__init__ b) = (Ok true, p') ->
  table_rows d <> [] ->
  (forall r, r ∈ table_rows d -> exists f, row_fold r = CInt f /\ 0 <= f) ->
  exists m,
    (exists r, r ∈ table_rows d /\ row_fold r = CInt m) /\
    (forall r f, r ∈ table_rows d -> row_fold r = CInt f -> f <= m) /\
    num_folds d (__init__ b) = (Ok (Some (1 + m)), p').
Proof.
  intros H Hne Hnn.
  destruct (can_parse_true_inv d (__init__ b) p' eq_refl H) as (df & Hdf & Hh & Ha & Hall & ->).
  exists (foldl bump_fold 0 (table_rows d)). split; [|split].
  - destruct (foldl_bump_fold_attained (table_rows d) 0) as [E|Hr]; [|done].
    destruct (table_rows d) as [|r rows] eqn:Hrows; [done|].
    assert (Hin : r ∈ r :: rows) by (apply elem_of_cons; by left).
    destruct (Hnn r Hin) as (f & Hf & Hf0).
    pose proof (foldl_bump_fold_upper (r :: rows) 0 r f Hin Hf) as Hle.
    exists r. split; [done|]. rewrite Hf. f_equal. lia.
  - intros r f Hr Hf. by eapply foldl_bump_fold_upper.
  - rewrite (num_folds_after d _ _ H). simpl. by rewrite Z.add_comm.
Qed.

Lemma num_folds_is_max_plus_one_witness :
  exists m,
    (exists r, r ∈ table_rows dir_three /\ row_fold r = CInt m) /\
    (forall r f, r ∈ table_rows dir_three -> row_fold r = CInt f -> f <= m) /\
    num_folds dir_three (__init__ "/data")
    = (Ok (Some (1 + m)), snd (can_parse dir_three (__init__ "/data"))).
Proof.
  apply (num_folds_is_max_plus_one dir_three "/data").
  - vm_compute. reflexivity.
  - vm_compute. discriminate.
  - intros r Hr. vm_compute in Hr.
    repeat (apply elem_of_cons in Hr as [->|Hr]; [eexists; split; [reflexivity|lia]|]).
    by apply elem_of_nil in Hr.
Defined.

(** Folds 0 and 5 give six folds, four of them with no row. *)
Example num_folds_dir_fold_gap :
  fst (num_folds dir_fold_gap (__init__ "/data")) = Ok (Some 6).
Proof. vm_compute. reflexivity. Qed.

(** ** The label map (C3) *)

Lemma add_label_keep (m : gmap cell cell) (r : row) (l v : cell) :
  m !! l = Some v -> add_label m r !! l = Some v.
Proof.
  intros H. unfold add_label. destruct (decide (m !! row_label r = None)) as [E|E]; [|done].
  rewrite lookup_insert_ne; [done|]. intros <-. congruence.
Qed.

Lemma foldl_add_label_keep (rows : list row) :
  forall (m : gmap cell cell) l v,
    m !! l = Some v -> foldl add_label m rows !! l = Some v.
Proof.
  induction rows as [|r rows IH]; intros m l v H; simpl; [done|].
  apply IH. by apply add_label_keep.
Qed.

Lemma foldl_add_label_absent (rows : list row) :
  forall (m : gmap cell cell) l,
    m !! l = None -> (forall r, r ∈ rows -> row_label r <> l) ->
    foldl add_label m rows !! l = None.
Proof.
  induction rows as [|r rows IH]; intros m l H Hn; simpl; [done|].
  apply IH.
  - unfold add_label. destruct (decide (m !! row_label r = None)); [|done].
    rewrite lookup_insert_ne; [done|]. apply Hn, elem_of_cons. by left.
  - intros r' Hr'. apply Hn, elem_of_cons. by right.
Qed.

Lemma foldl_add_label_first (pre post : list row) (r : row) (m : gmap cell cell) :
  m !! row_label r = None ->
  (forall r', r' ∈ pre -> row_label r' <> row_label r) ->
  foldl add_label m (pre ++ r :: post) !! row_label r = Some (row_label_enum r).
Proof.
  intros Hm Hpre. rewrite foldl_app. simpl.
  apply foldl_add_label_keep.
  pose proof (foldl_add_label_absent pre m (row_label r) Hm Hpre) as Hnone.
  unfold add_label. rewrite decide_True by done. apply lookup_insert_eq.
Qed.

(** C3: for every data set on which validation succeeds, [label_map]
    returns a map that binds the label of a row to the code of the first
    row of the table with that label; a later row with the same label,
    whatever its code, leaves that binding as it is; and a label of no row
    is not bound. *)
Theorem label_map_first_occurrence (d : DatasetDir) (b : string) (p' : KoeParser) :
  can_parse d (__init__ b) = (Ok true, p') ->
  exists m : gmap cell cell,
    label_map d (__init__ b) = (Ok (Some m), p') /\
    (forall pre r post,
        table_rows d = pre ++ r :: post ->
        (forall r', r' ∈ pre -> row_label r' <> row_label r) ->
        m !! row_label r = Some (row_label_enum r) /\
        (forall r2, r2 ∈ post -> row_label r2 = row_label r ->
                    m !! row_label r2 = Some (row_label_enum r))) /\
    (forall l, (forall r, r ∈ table_rows d -> row_label r <> l) -> m !! l = None).
Proof.
  intros H.
  destruct (can_parse_true_inv d (__init__ b) p' eq_refl H)
    as (df & Hdf & Hh & Ha & Hall & ->).
  exists (foldl add_label ∅ (table_rows d)). split; [|split].
  - by rewrite (label_map_after d _ _ H).
  - intros pre r post Hrows Hpre.
    assert (Hfirst : foldl add_label ∅ (table_rows d) !! row_label r
                     = Some (row_label_enum r)).
    { rewrite Hrows. apply foldl_add_label_first; [apply lookup_empty|done]. }
    split; [done|]. intros r2 _ ->. done.
  - intros l Hl. apply foldl_add_label_absent; [apply lookup_empty|done].
Qed.

Lemma label_map_first_occurrence_witness :
  exists m : gmap cell cell,
    label_map dir_three (__init__ "/data")
    = (Ok (Some m), snd (can_parse dir_three (__init__ "/data"))) /\
    (forall pre r post,
        table_rows dir_three = pre ++ r :: post ->
        (forall r', r' ∈ pre -> row_label r' <> row_label r) ->
        m !! row_label r = Some (row_label_enum r) /\
        (forall r2, r2 ∈ post -> row_label r2 = row_label r ->
                    m !! row_label r2 = Some (row_label_enum r))) /\
    (forall l, (forall r, r ∈ table_rows dir_three -> row_label r <> l) ->
               m !! l = None).
Proof.
  apply (label_map_first_occurrence dir_three "/data").
  vm_compute. reflexivity.
Defined.

(** The table of the example binds [dog] first to 5 and later to 9. *)
Example label_map_dir_three :
  exists m : gmap cell cell,
    fst (label_map dir_three (__init__ "/data")) = Ok (Some m) /\
    m !! CStr "dog" = Some (CInt 5) /\ m !! CStr "cat" = Some (CInt 1).
Proof. eexists. split; [vm_compute; reflexivity|]. split; reflexivity. Qed.

(** ** The empty data set (C9) *)

(** C9: a directory with no audio file whose table is the expected header
    and no row passes validation; [num_instances] is 0, [parse] returns
    the empty list and [num_folds] is 1. *)
Theorem empty_dataset (d : DatasetDir) (b : string) (df : DataFrame) :
  List.filter is_audio_file (glob_star d) = [] ->
  metadata_tsv d = Some df ->
  columns df = expected_header ->
  values df = [] ->
  exists p',
    can_parse d (__init__ b) = (Ok true, p') /\
    num_instances d (__init__ b) = (Ok 0, p') /\
    parse d (__init__ b) = (Ok [], p') /\
    num_folds d (__init__ b) = (Ok (Some 1), p').
Proof.
  intros Hfiles Hdf Hh Hv.
  assert (Hrows : table_rows d = []).
  { unfold table_rows, frame_rows. by rewrite Hdf, Hv. }
  assert (Hm : ~ structural_mismatch d).
  { unfold structural_mismatch. rewrite Hdf. intros [?|Hn]; [done|].
    apply Hn. unfold names_agree, table_file_names, audio_file_names.
    rewrite Hrows, Hfiles. simpl. apply set_map_empty. }
  assert (H : can_parse d (__init__ b) = (Ok true, validated b df [])).
  { rewrite <- Hrows. apply can_parse_accepts; try done.
    rewrite Hrows. constructor. }
  exists (validated b df []). split; [done|]. split; [|split].
  - by rewrite (num_instances_after d _ _ [] H).
  - by rewrite (parse_after d _ _ [] H).
  - by rewrite (num_folds_after d _ _ H).
Qed.

Lemma empty_dataset_witness :
  exists p',
    can_parse dir_empty (__init__ "/data") = (Ok true, p') /\
    num_instances dir_empty (__init__ "/data") = (Ok 0, p') /\
    parse dir_empty (__init__ "/data") = (Ok [], p') /\
    num_folds dir_empty (__init__ "/data") = (Ok (Some 1), p').
Proof.
  apply (empty_dataset dir_empty "/data" df_header_only); reflexivity.
Defined.

(** ** [parse] on a validated object *)

Lemma in_range_or_below (n : Z) (rows : list row) :
  Forall (fun r => - n <= fold_index r) rows
  \/ Exists (fun r => fold_index r < - n) rows.
Proof.
  induction rows as [|r rows [IH|IH]]; [by left | |].
  - destruct (Z.lt_ge_cases (fold_index r) (- n)).
    + right. by left.
    + left. by constructor.
  - right. by right.
Qed.

Lemma parse_validated_in_range (d : DatasetDir) (b : string) (df : DataFrame) :
  names_agree d ->
  Forall (fun r => is_int (row_fold r) = true) (table_rows d) ->
  let n := foldl bump_fold 0 (table_rows d) + 1 in
  Forall (fun r => - n <= fold_index r) (table_rows d) ->
  parse_loop (validated b df (table_rows d)) (table_rows d) []
  = Ok (instance_of b n <$> table_rows d).
Proof.
  intros Ha Hall n Hge.
  rewrite (parse_loop_in_range _ n); try done.
  by apply validated_rows_ok.
Qed.

Lemma parse_validated_below (d : DatasetDir) (b : string) (df : DataFrame) :
  names_agree d ->
  Forall (fun r => is_int (row_fold r) = true) (table_rows d) ->
  let n := foldl bump_fold 0 (table_rows d) + 1 in
  Exists (fun r => fold_index r < - n) (table_rows d) ->
  parse_loop (validated b df (table_rows d)) (table_rows d) []
  = Raise IndexError.
Proof.
  intros Ha Hall n Hex.
  apply (parse_loop_below _ n); try done.
  - pose proof (foldl_bump_fold_ge (table_rows d) 0). lia.
  - by apply validated_rows_ok.
Qed.


(** ** Round trip of the file names (C8) *)



(** ** Memoization (C6) *)








(** ** What a rejection leaves in the object (C10) *)

Lemma call_state (m : method) (d : DatasetDir) (p : KoeParser) :
  snd (call m d p) = snd (can_parse d p).
Proof.
  destruct m; unfold call, num_instances, num_folds, label_map, parse,
    require_can_parse, bind;
    destruct (can_parse d p) as [[[]|e] q]; simpl; try done.
  - by destruct (_data q).
  - destruct (_data q) as [data|]; [|done].
    by destruct (parse_loop q data []).
Qed.

Lemma rejected_init (d : DatasetDir) (b : string) :
  rejected d (__init__ b)
  = {| _basedir := b;
       _data := None;
       _metadata := metadata_tsv d;
       _label_map_cache := None;
       _can_parse_cache := Some false;
       _numfolds := None |}.
Proof. unfold rejected. by destruct (metadata_tsv d). Qed.

Lemma reached_can_parse (d : DatasetDir) (b : string) (p : KoeParser) :
  reached d b p -> reached d b (snd (can_parse d p)).
Proof.
  intros [|Hm|p0 Hc|p0 Hc Hm Hex].
  - destruct (decide (structural_mismatch d)) as [Hm|Hm].
    + rewrite (can_parse_rejects d (__init__ b) eq_refl Hm).
      by apply reached_rejected.
    + destruct (Forall_Exists_is_int (table_rows d)) as [Hall|Hex].
      * destruct (metadata_tsv d) as [df|] eqn:Hdf.
        -- rewrite (can_parse_accepts d (__init__ b) df eq_refl Hdf Hm Hall).
           by apply reached_validated.
        -- destruct Hm. unfold structural_mismatch. by rewrite Hdf.
      * destruct (can_parse_type_error d (__init__ b) eq_refl Hm Hex)
          as (p' & -> & Hc').
        by apply reached_type_error.
  - rewrite (can_parse_cached d _ false); [by apply reached_rejected|].
    by rewrite rejected_init.
  - rewrite (can_parse_cached d _ true Hc). by apply reached_validated.
  - destruct (can_parse_type_error d p0 Hc Hm Hex) as (p' & -> & Hc').
    by apply reached_type_error.
Qed.

Lemma reached_run (d : DatasetDir) (b : string) (ms : list method) :
  forall p, reached d b p -> reached d b (run (in_dir d ms) p).
Proof.
  induction ms as [|m ms IH]; intros p Hp; simpl; [done|].
  apply IH. rewrite call_state. by apply reached_can_parse.
Qed.

Lemma can_parse_false_writes (d : DatasetDir) (p p' : KoeParser) :
  can_parse d p = (Ok false, p') ->
  p' = match _can_parse_cache p with
       | Some _ => p
       | None => rejected d p
       end.
Proof.
  intros H. destruct (_can_parse_cache p) as [b0|] eqn:Hc.
  - rewrite (can_parse_cached d p b0 Hc) in H. congruence.
  - by destruct (can_parse_false_inv d p p' Hc H) as [-> _].
Qed.

(** C10 as stated fails: a first call on the directory whose fold cell is
    a string raises inside the loop, after the row list, the label map
    and the fold count were set; when the metadata file is then removed,
    the next call returns false and those three still hold what the
    first call left. *)
Lemma false_leaves_unset_counterexample :
  fst (can_parse dir_string_fold (__init__ "/data")) = Raise TypeError /\
  (let p := run [(m_can_parse, dir_string_fold)] (__init__ "/data") in
   fst (can_parse dir_no_metadata p) = Ok false /\
   _data (snd (can_parse dir_no_metadata p))
   = Some [(CInt 1, CStr "a.wav", CStr "dog", CInt 0, CStr "x")] /\
   _label_map_cache (snd (can_parse dir_no_metadata p))
   = Some {[CStr "dog" := CInt 0]} /\
   _numfolds (snd (can_parse dir_no_metadata p)) = Some 0) /\
  ~ false_leaves_unset [(m_can_parse, dir_string_fold)] "/data" dir_no_metadata.
Proof.
  split; [vm_compute; reflexivity|]. split.
  - cbv zeta. repeat split; vm_compute; reflexivity.
  - intros H.
    destruct (H (snd (can_parse dir_no_metadata
                        (run [(m_can_parse, dir_string_fold)] (__init__ "/data")))))
      as (Hd & _); [vm_compute; reflexivity|].
    vm_compute in Hd. discriminate.
Qed.

(** C10, amended: a call of [can_parse] that returns false leaves the row
    list, the label map and the fold count as they were before the call.
    When the result cache was unset it writes the result cache, which
    then holds false, and, when there is a metadata file, the table
    attribute, which then holds the parsed table; when the result cache
    was set it writes nothing.  So on a parser that has only been called,
    since its construction, while the directory holds the same content,
    the three are unset as at construction, and the table attribute is
    the parsed table when there is a metadata file (the failure is then at
    the header or at the comparison of names) and unset when there is
    none. *)
Theorem can_parse_false_frame (d : DatasetDir) (p p' : KoeParser) :
  can_parse d p = (Ok false, p') ->
  (_basedir p' = _basedir p /\
   _data p' = _data p /\
   _label_map_cache p' = _label_map_cache p /\
   _numfolds p' = _numfolds p /\
   _can_parse_cache p' = Some false /\
   _metadata p' = match _can_parse_cache p, metadata_tsv d with
                  | None, Some df => Some df
                  | _, _ => _metadata p
                  end) /\
  (forall (b : string) (ms : list method),
      p = run (in_dir d ms) (__init__ b) ->
      p' = {| _basedir := b;
              _data := None;
              _metadata := metadata_tsv d;
              _label_map_cache := None;
              _can_parse_cache := Some false;
              _numfolds := None |}).
Proof.
  intros H. split.
  - pose proof (can_parse_false_writes d p p' H) as Hp'.
    destruct (_can_parse_cache p) as [b0|] eqn:Hc.
    + subst p'. rewrite (can_parse_cached d p b0 Hc) in H.
      injection H as <-. by rewrite Hc.
    + subst p'. unfold rejected. by destruct (metadata_tsv d).
  - intros b ms ->. rewrite <- rejected_init.
    pose proof (reached_run d b ms _ (reached_init d b)) as R.
    destruct R as [|Hm|p0 Hc|p0 Hc Hm Hex].
    + by destruct (can_parse_false_inv d (__init__ b) p' eq_refl H) as [-> _].
    + rewrite (can_parse_cached d _ false) in H; [congruence|].
      by rewrite rejected_init.
    + rewrite (can_parse_cached d _ true Hc) in H. congruence.
    + destruct (can_parse_type_error d p0 Hc Hm Hex) as (q & Hq & _).
      congruence.
Qed.

Lemma can_parse_false_frame_witness :
  snd (can_parse dir_other_names
         (run (in_dir dir_other_names [m_parse; m_num_folds])
              (__init__ "/data")))
  = {| _basedir := "/data";
       _data := None;
       _metadata := Some df_other_names;
       _label_map_cache := None;
       _can_parse_cache := Some false;
       _numfolds := None |}
  /\ snd (can_parse dir_no_metadata (__init__ "/data"))
     = {| _basedir := "/data";
          _data := None;
          _metadata := None;
          _label_map_cache := None;
          _can_parse_cache := Some false;
          _numfolds := None |}
  /\ _data (snd (can_parse dir_no_metadata
                   (snd (can_parse dir_string_fold (__init__ "/data")))))
     = _data (snd (can_parse dir_string_fold (__init__ "/data"))).
Proof.
  split; [|split].
  - refine (proj2 (can_parse_false_frame dir_other_names _ _ _)
              "/data" [m_parse; m_num_folds] eq_refl).
    vm_compute. reflexivity.
  - refine (proj2 (can_parse_false_frame dir_no_metadata _ _ _)
              "/data" [] eq_refl).
    vm_compute. reflexivity.
  - refine (proj1 (proj2 (proj1 (can_parse_false_frame dir_no_metadata _ _ _)))).
    vm_compute. reflexivity.
Defined.

(** ** What [can_parse] returns (C4) *)

Lemma dir_string_fold_agrees : ~ structural_mismatch dir_string_fold.
Proof.
  unfold structural_mismatch. simpl. intros [Hh|Hn]; [by apply Hh|].
  apply Hn. vm_compute. reflexivity.
Qed.

(** C4 as stated fails: in a directory with a metadata file,
    the expected header and the same names on disk and in the table, but
    a fold cell that is a string, [can_parse] does not return true; the
    comparison of that cell with the fold count raises a [TypeError]. *)
Lemma can_parse_decides_counterexample :
  ~ structural_mismatch dir_string_fold /\
  fst (can_parse dir_string_fold (__init__ "/data")) = Raise TypeError /\
  ~ can_parse_decides dir_string_fold "/data".
Proof.
  split; [exact dir_string_fold_agrees|]. split; [vm_compute; reflexivity|].
  intros [_ H]. specialize (H dir_string_fold_agrees).
  vm_compute in H. discriminate.
Qed.

(** C4, amended: for a directory whose metadata file is absent, or is
    read by [read_csv] into a table of integer and string cells:
    [can_parse] on a new parser returns false exactly on a structural
    mismatch (no metadata file, another header, or other file names in
    the table than on disk).  When the file is read and there is no
    structural mismatch, it returns true if every fold cell is an integer
    and raises a [TypeError] if some fold cell is a string; and it returns
    true only when there is no structural mismatch and no fold cell is a
    string. *)
Theorem can_parse_result (d : DatasetDir) (b : string) :
  (fst (can_parse d (__init__ b)) = Ok false <-> structural_mismatch d) /\
  (forall df,
      metadata_tsv d = Some df -> ~ structural_mismatch d ->
      (forall r, r ∈ table_rows d -> exists f, row_fold r = CInt f) ->
      fst (can_parse d (__init__ b)) = Ok true) /\
  (forall df,
      metadata_tsv d = Some df -> ~ structural_mismatch d ->
      (exists r s, r ∈ table_rows d /\ row_fold r = CStr s) ->
      fst (can_parse d (__init__ b)) = Raise TypeError) /\
  (fst (can_parse d (__init__ b)) = Ok true ->
   (exists df, metadata_tsv d = Some df) /\
   ~ structural_mismatch d /\
   (forall r s, r ∈ table_rows d -> row_fold r <> CStr s)).
Proof.
  destruct (decide (structural_mismatch d)) as [Hm|Hm].
  { rewrite (can_parse_rejects d (__init__ b) eq_refl Hm). simpl.
    repeat split; try done; intros; done. }
  destruct (metadata_tsv d) as [df|] eqn:Hdf.
  2:{ destruct Hm. unfold structural_mismatch. by rewrite Hdf. }
  destruct (Forall_Exists_is_int (table_rows d)) as [Hall|Hex].
  - rewrite (can_parse_accepts d (__init__ b) df eq_refl Hdf Hm Hall). simpl.
    split; [split; done|]. split; [done|]. split.
    + intros df' _ _ (r & s & Hr & Hs).
      rewrite Forall_forall in Hall. specialize (Hall r Hr).
      rewrite Hs in Hall. done.
    + intros _. split; [eauto|]. split; [done|].
      intros r s Hr Hs. rewrite Forall_forall in Hall. specialize (Hall r Hr).
      rewrite Hs in Hall. done.
  - destruct (can_parse_type_error d (__init__ b) eq_refl Hm Hex)
      as (p' & -> & _). simpl.
    split; [split; done|]. split; [|split; [done|done]].
    intros df' _ _ Hint.
    apply Exists_exists in Hex as (r & Hr & Hf).
    destruct (Hint r Hr) as (f & Hf'). rewrite Hf' in Hf. done.
Qed.

(** ** The accessors and the outcome of validation (C5) *)






(** ** The split vectors (C1) *)

Lemma filter_valid_replicate_train (k : nat) :
  filter (fun x => x = VALID) (replicate k TRAIN) = [].
Proof.
  induction k as [|k IH]; [done|].
  cbn [replicate]. by rewrite filter_cons_False.
Qed.

Lemma one_valid_after_insert (k i : nat) :
  (i < k)%nat ->
  length (filter (fun x => x = VALID) (<[i := VALID]> (replicate k TRAIN))) = 1%nat.
Proof.
  revert i. induction k as [|k IH]; intros i Hi; [lia|].
  destruct i as [|i]; cbn [replicate insert list_insert].
  - rewrite filter_cons_True by done. cbn [length].
    by rewrite filter_valid_replicate_train.
  - rewrite filter_cons_False by done. apply IH. lia.
Qed.

Lemma split_vector_marks (n f : Z) :
  0 <= f < n ->
  split_marks f n (split_vector n f) /\
  length (filter (fun x => x = VALID) (split_vector n f)) = 1%nat.
Proof.
  intros Hf. unfold split_vector, py_repeat, split_marks.
  rewrite Z.mod_small by done.
  rewrite length_insert, length_replicate.
  split; [split; [done|split]|].
  - exists (Z.to_nat f). split; [lia|].
    apply list_lookup_insert_eq. rewrite length_replicate. lia.
  - intros j Hj Hne.
    rewrite list_lookup_insert_ne by lia.
    by apply lookup_replicate_2.
  - apply one_valid_after_insert. lia.
Qed.

Lemma dir_negative_fold_validates :
  exists p', can_parse dir_negative_fold (__init__ "/data") = (Ok true, p').
Proof. eexists. vm_compute. reflexivity. Qed.

(** C1 as stated fails: the directory whose only row has
    fold -1 passes validation with a fold count of 1, and [parse] returns
    one record whose split vector is VALID at position 0, which is not the
    fold of its row; no position is. *)
Lemma split_vectors_marked_counterexample :
  fst (can_parse dir_negative_fold (__init__ "/data")) = Ok true /\
  (exists rec, fst (parse dir_negative_fold (__init__ "/data")) = Ok [rec] /\
               cv_folds rec = [VALID]) /\
  row_fold <$> table_rows dir_negative_fold = [CInt (-1)] /\
  ~ split_vectors_marked dir_negative_fold "/data".
Proof.
  split; [vm_compute; reflexivity|].
  split; [eexists; split; vm_compute; reflexivity|].
  split; [vm_compute; reflexivity|].
  intros H. destruct dir_negative_fold_validates as (p' & Hp').
  destruct (H p' _ Hp' eq_refl) as (n & _ & HF).
  change (table_rows dir_negative_fold)
    with [(CInt 1, CStr "a.wav", CStr "dog", CInt 0, CInt (-1))] in HF.
  apply Forall2_cons_inv_l in HF
    as (rec & recs' & (f & Hf & _ & (j & Hj & _) & _) & _ & _).
  simpl in Hf. injection Hf as <-. lia.
Qed.

(** C1, amended: for every data set on which validation succeeds and
    whose fold values are all non-negative integers, every record [parse]
    returns carries a split vector whose length is the fold count, in
    which the position equal to the fold of the record's row is VALID and
    every other position is TRAIN; exactly one position is VALID. *)
Theorem split_vectors (d : DatasetDir) (b : string) (p' : KoeParser)
    (recs : list _InstanceMetadata) :
  can_parse d (__init__ b) = (Ok true, p') ->
  (forall r, r ∈ table_rows d -> exists f, row_fold r = CInt f /\ 0 <= f) ->
  fst (parse d (__init__ b)) = Ok recs ->
  exists n,
    num_folds d (__init__ b) = (Ok (Some n), p') /\
    Forall2 (fun r rec =>
               exists f, row_fold r = CInt f /\
                         split_marks f n (cv_folds rec) /\
                         length (filter (fun x => x = VALID) (cv_folds rec)) = 1%nat)
            (table_rows d) recs.
Proof.
  intros H Hnn Hp.
  destruct (can_parse_true_inv d (__init__ b) p' eq_refl H)
    as (df & Hdf & Hh & Ha & Hall & ->).
  change (_basedir (__init__ b)) with b in *.
  set (n := foldl bump_fold 0 (table_rows d) + 1).
  assert (Hidx : forall r, r ∈ table_rows d ->
                   row_fold r = CInt (fold_index r) /\ 0 <= fold_index r < n).
  { intros r Hr. pose proof (validated_rows_ok d Ha Hall) as Hok.
    rewrite Forall_forall in Hok.
    destruct (Hok r Hr) as [_ (f & Hf & Hlt)].
    destruct (Hnn r Hr) as (f' & Hf' & Hf0).
    assert (f' = f) as -> by congruence.
    unfold fold_index. rewrite Hf. split; [done|]. split; done. }
  exists n. split; [by rewrite (num_folds_after d _ _ H)|].
  rewrite (parse_after d _ _ (table_rows d) H) in Hp by done.
  rewrite (parse_validated_in_range d b df Ha Hall) in Hp.
  2:{ apply Forall_forall. intros r Hr. destruct (Hidx r Hr) as [_ ?].
      fold n. lia. }
  simpl in Hp. injection Hp as <-.
  apply Forall2_fmap_r, Forall_Forall2_diag, Forall_forall.
  intros r Hr. destruct (Hidx r Hr) as [Hf Hrange].
  exists (fold_index r). split; [done|].
  simpl. by apply split_vector_marks.
Qed.

Lemma split_vectors_witness :
  exists recs n,
    fst (parse dir_three (__init__ "/data")) = Ok recs /\
    num_folds dir_three (__init__ "/data")
    = (Ok (Some n), snd (can_parse dir_three (__init__ "/data"))) /\
    Forall2 (fun r rec =>
               exists f, row_fold r = CInt f /\
                         split_marks f n (cv_folds rec) /\
                         length (filter (fun x => x = VALID) (cv_folds rec)) = 1%nat)
            (table_rows dir_three) recs.
Proof.
  eexists.
  assert (Hnn : forall r, r ∈ table_rows dir_three ->
                          exists f, row_fold r = CInt f /\ 0 <= f).
  { intros r Hr. vm_compute in Hr.
    repeat (apply elem_of_cons in Hr as [->|Hr];
            [eexists; split; [reflexivity|lia]|]).
    by apply elem_of_nil in Hr. }
  destruct (split_vectors dir_three "/data"
              (snd (can_parse dir_three (__init__ "/data")))
              _ eq_refl Hnn eq_refl) as (n & Hn & HF).
  exists n. split; [reflexivity|]. split; [exact Hn|exact HF].
Defined.

(** The split vectors of the example, whose rows have folds 0, 2 and 1. *)
Example split_vectors_dir_three :
  exists recs,
    fst (parse dir_three (__init__ "/data")) = Ok recs /\
    cv_folds <$> recs
    = [[VALID; TRAIN; TRAIN]; [TRAIN; TRAIN; VALID]; [TRAIN; VALID; TRAIN]].
Proof. eexists. split; vm_compute; reflexivity. Qed.

(** ** One record per row, in table order (C7) *)





(** The records of the example, in the order of its table. *)
Example parse_dir_three :
  fst (parse dir_three (__init__ "/data"))
  = Ok [ {| path := mkPath "/data/a.wav"; filename := "a.wav";
            label_nominal := CStr "dog"; label_numeric := CInt 5;
            cv_folds := [VALID; TRAIN; TRAIN]; partition := None |};
         {| path := mkPath "/data/b.wav"; filename := "b.wav";
            label_nominal := CStr "dog"; label_numeric := CInt 9;
            cv_folds := [TRAIN; TRAIN; VALID]; partition := None |};
         {| path := mkPath "/data/c.WAV"; filename := "c.WAV";
            label_nominal := CStr "cat"; label_numeric := CInt 1;
            cv_folds := [TRAIN; VALID; TRAIN]; partition := None |} ].
Proof. vm_compute. reflexivity. Qed.

(** ** The outcomes of validation on the example directories *)

Example can_parse_dir_three :
  fst (can_parse dir_three (__init__ "/data")) = Ok true /\
  fst (num_instances dir_three (__init__ "/data")) = Ok 3.
Proof. split; vm_compute; reflexivity. Qed.

Example can_parse_dir_no_metadata :
  fst (can_parse dir_no_metadata (__init__ "/data")) = Ok false.
Proof. vm_compute. reflexivity. Qed.

Example can_parse_dir_swapped_header :
  fst (can_parse dir_swapped_header (__init__ "/data")) = Ok false.
Proof. vm_compute. reflexivity. Qed.

Example can_parse_dir_other_names :
  fst (can_parse dir_other_names (__init__ "/data")) = Ok false.
Proof. vm_compute. reflexivity. Qed.

(** * Further properties of the parser *)

(** ** The instance count, the rows and the files *)

Lemma size_list_to_set_length `{Countable A} (l : list A) :
  (size (list_to_set l : gset A) <= length l)%nat /\
  (size (list_to_set l : gset A) = length l <-> NoDup l).
Proof.
  induction l as [|x l [IHle IHeq]].
  - rewrite list_to_set_nil, size_empty. simpl. split; [lia|].
    split; [constructor|done].
  - rewrite list_to_set_cons, NoDup_cons. simpl.
    destruct (decide (x ∈ l)) as [Hin|Hin].
    + assert (E : {[x]} ∪ list_to_set l = (list_to_set l : gset A)).
      { apply subseteq_union_1_L, singleton_subseteq_l.
        by apply elem_of_list_to_set. }
      rewrite E. split; [lia|]. split; [lia|]. by intros [? _].
    + rewrite size_union, size_singleton.
      2:{ apply disjoint_singleton_l. by rewrite elem_of_list_to_set. }
      split; [lia|]. split.
      * intros E. split; [done|]. apply IHeq. lia.
      * intros [_ Hnd]. apply IHeq in Hnd. lia.
Qed.

Lemma size_set_map_CStr (X : gset string) :
  size (set_map CStr X : gset cell) = size X.
Proof.
  unfold set_map. rewrite size_list_to_set.
  - by rewrite length_fmap.
  - apply NoDup_fmap_2; [by intros ?? [= ->]|]. apply NoDup_elements.
Qed.

(** X1: after a successful validation [num_instances] is the number of
    rows of the table as [read_csv] delivered it, repeated rows counted;
    it is at least the number of audio files on disk, and equal to it
    exactly when no file name occurs in two rows. *)
Theorem num_instances_counts_rows (d : DatasetDir) (b : string)
    (p' : KoeParser) (df : DataFrame) :
  can_parse d (__init__ b) = (Ok true, p') ->
  metadata_tsv d = Some df ->
  num_instances d (__init__ b) = (Ok (Z.of_nat (length (values df))), p') /\
  (size (audio_file_names d) <= length (values df))%nat /\
  (size (audio_file_names d) = length (values df)
   <-> NoDup (row_filename <$> table_rows d)).
Proof.
  intros H Hdf.
  destruct (can_parse_true_inv d (__init__ b) p' eq_refl H)
    as (df' & Hdf' & Hh & Ha & Hall & ->).
  assert (df' = df) as -> by congruence.
  assert (Hlen : length (values df) = length (table_rows d)).
  { rewrite <- (table_rows_values d df Hdf Hh). by rewrite length_fmap. }
  assert (Hsize : size (audio_file_names d)
                  = size (list_to_set (row_filename <$> table_rows d) : gset cell)).
  { rewrite <- size_set_map_CStr. by rewrite Ha. }
  destruct (size_list_to_set_length (row_filename <$> table_rows d))
    as [Hle Heq].
  rewrite length_fmap in Hle, Heq.
  split; [|split].
  - rewrite (num_instances_after d _ _ (table_rows d) H) by done.
    by rewrite Hlen.
  - lia.
  - rewrite Hlen, Hsize. exact Heq.
Qed.

Lemma num_instances_counts_rows_witness :
  num_instances dir_three (__init__ "/data")
  = (Ok (Z.of_nat (length (values df_three))),
     snd (can_parse dir_three (__init__ "/data"))) /\
  (size (audio_file_names dir_three) <= length (values df_three))%nat /\
  (size (audio_file_names dir_three) = length (values df_three)
   <-> NoDup (row_filename <$> table_rows dir_three)).
Proof.
  apply (num_instances_counts_rows dir_three "/data").
  - vm_compute. reflexivity.
  - reflexivity.
Defined.

(** X2: after a successful validation the number of records [parse]
    returns, when it returns, is [num_instances]. *)
Theorem parse_length_is_num_instances (d : DatasetDir) (b : string)
    (p' : KoeParser) (recs : list _InstanceMetadata) :
  can_parse d (__init__ b) = (Ok true, p') ->
  fst (parse d (__init__ b)) = Ok recs ->
  num_instances d (__init__ b) = (Ok (Z.of_nat (length recs)), p').
Proof.
  intros H Hp.
  destruct (can_parse_true_inv d (__init__ b) p' eq_refl H)
    as (df & Hdf & Hh & Ha & Hall & ->).
  rewrite (num_instances_after d _ _ (table_rows d) H) by done.
  rewrite (parse_after d _ _ (table_rows d) H) in Hp by done.
  change (_basedir (__init__ b)) with b in *.
  destruct (in_range_or_below (foldl bump_fold 0 (table_rows d) + 1)
              (table_rows d)) as [Hge|Hex].
  - rewrite (parse_validated_in_range d b df Ha Hall Hge) in Hp.
    simpl in Hp. injection Hp as <-. by rewrite length_fmap.
  - rewrite (parse_validated_below d b df Ha Hall Hex) in Hp. done.
Qed.

Lemma parse_length_is_num_instances_witness :
  exists recs,
    fst (parse dir_three (__init__ "/data")) = Ok recs /\
    num_instances dir_three (__init__ "/data")
    = (Ok (Z.of_nat (length recs)), snd (can_parse dir_three (__init__ "/data"))).
Proof.
  eexists. split; [vm_compute; reflexivity|].
  eapply (parse_length_is_num_instances dir_three "/data");
    vm_compute; reflexivity.
Defined.

(** One file named by two rows gives two instances. *)
Example num_instances_dir_repeated :
  fst (can_parse dir_repeated (__init__ "/data")) = Ok true /\
  fst (num_instances dir_repeated (__init__ "/data")) = Ok 2 /\
  size (audio_file_names dir_repeated) = 1%nat.
Proof. repeat split; vm_compute; reflexivity. Qed.

(** ** The fold count, whatever the sign of the folds *)

(** X3: after a successful validation [num_folds] is at least 1 and
    greater than every fold value of the table; it is 1, or one more than
    the fold value of some row.  So it is 1 for a table with no row or
    with no positive fold. *)
Theorem num_folds_bounds (d : DatasetDir) (b : string) (p' : KoeParser) :
  can_parse d (__init__ b) = (Ok true, p') ->
  exists n,
    num_folds d (__init__ b) = (Ok (Some n), p') /\
    1 <= n /\
    (forall r f, r ∈ table_rows d -> row_fold r = CInt f -> f < n) /\
    (n = 1 \/ exists r, r ∈ table_rows d /\ row_fold r = CInt (n - 1)) /\
    ((forall r f, r ∈ table_rows d -> row_fold r = CInt f -> f <= 0) -> n = 1).
Proof.
  intros H.
  destruct (can_parse_true_inv d (__init__ b) p' eq_refl H)
    as (df & Hdf & Hh & Ha & Hall & ->).
  exists (foldl bump_fold 0 (table_rows d) + 1).
  pose proof (foldl_bump_fold_ge (table_rows d) 0) as Hge.
  split; [by rewrite (num_folds_after d _ _ H)|].
  split; [lia|]. split; [|split].
  - intros r f Hr Hf.
    pose proof (foldl_bump_fold_upper (table_rows d) 0 r f Hr Hf). lia.
  - destruct (foldl_bump_fold_attained (table_rows d) 0) as [E|(r & Hr & Hf)].
    + left. lia.
    + right. exists r. split; [done|]. rewrite Hf. f_equal. lia.
  - intros Hnp.
    destruct (foldl_bump_fold_attained (table_rows d) 0) as [E|(r & Hr & Hf)].
    + lia.
    + specialize (Hnp r _ Hr Hf). lia.
Qed.

Lemma num_folds_bounds_witness :
  exists n,
    num_folds dir_fold_below (__init__ "/data")
    = (Ok (Some n), snd (can_parse dir_fold_below (__init__ "/data"))) /\
    1 <= n /\
    (forall r f, r ∈ table_rows dir_fold_below -> row_fold r = CInt f -> f < n) /\
    (n = 1 \/ exists r, r ∈ table_rows dir_fold_below
                       /\ row_fold r = CInt (n - 1)) /\
    ((forall r f, r ∈ table_rows dir_fold_below -> row_fold r = CInt f -> f <= 0)
     -> n = 1).
Proof.
  apply (num_folds_bounds dir_fold_below "/data").
  vm_compute. reflexivity.
Defined.

(** ** The split vector, whatever the sign of the fold *)

Lemma split_vector_position (n f : Z) :
  - n <= f < n ->
  length (split_vector n f) = Z.to_nat n /\
  split_vector n f !! Z.to_nat (f mod n) = Some VALID /\
  (forall j : nat, (j < Z.to_nat n)%nat -> j <> Z.to_nat (f mod n) ->
                   split_vector n f !! j = Some TRAIN) /\
  length (filter (fun x => x = VALID) (split_vector n f)) = 1%nat.
Proof.
  intros Hf. unfold split_vector, py_repeat.
  assert (Hn : 0 < n) by lia.
  pose proof (Z.mod_pos_bound f n Hn) as Hm.
  rewrite length_insert, length_replicate.
  split; [done|]. split; [|split].
  - apply list_lookup_insert_eq. rewrite length_replicate. lia.
  - intros j Hj Hne. rewrite list_lookup_insert_ne by done.
    by apply lookup_replicate_2.
  - apply one_valid_after_insert. lia.
Qed.

(** X4: after a successful validation, every record [parse] returns has a
    split vector of [num_folds] markers of which exactly one is VALID, at
    the position that is the fold of its row modulo [num_folds]: the fold
    itself when it is not negative, and the fold plus [num_folds], counted
    from the end, when it is. *)
Theorem split_vector_wraps (d : DatasetDir) (b : string) (p' : KoeParser)
    (recs : list _InstanceMetadata) :
  can_parse d (__init__ b) = (Ok true, p') ->
  fst (parse d (__init__ b)) = Ok recs ->
  exists n,
    num_folds d (__init__ b) = (Ok (Some n), p') /\
    Forall2 (fun r rec =>
               exists f,
                 row_fold r = CInt f /\ - n <= f < n /\
                 length (cv_folds rec) = Z.to_nat n /\
                 cv_folds rec !! Z.to_nat (f mod n) = Some VALID /\
                 (forall j : nat, (j < Z.to_nat n)%nat ->
                                  j <> Z.to_nat (f mod n) ->
                                  cv_folds rec !! j = Some TRAIN) /\
                 length (filter (fun x => x = VALID) (cv_folds rec)) = 1%nat /\
                 (0 <= f -> f mod n = f) /\ (f < 0 -> f mod n = f + n))
            (table_rows d) recs.
Proof.
  intros H Hp.
  destruct (can_parse_true_inv d (__init__ b) p' eq_refl H)
    as (df & Hdf & Hh & Ha & Hall & ->).
  rewrite (parse_after d _ _ (table_rows d) H) in Hp by done.
  change (_basedir (__init__ b)) with b in *.
  set (n := foldl bump_fold 0 (table_rows d) + 1) in *.
  exists n. split; [by rewrite (num_folds_after d _ _ H)|].
  destruct (in_range_or_below n (table_rows d)) as [Hge|Hex].
  2:{ rewrite (parse_validated_below d b df Ha Hall Hex) in Hp. done. }
  rewrite (parse_validated_in_range d b df Ha Hall Hge) in Hp.
  simpl in Hp. injection Hp as <-.
  apply Forall2_fmap_r, Forall_Forall2_diag, Forall_forall.
  intros r Hr.
  pose proof (validated_rows_ok d Ha Hall) as Hok.
  rewrite Forall_forall in Hok, Hge.
  destruct (Hok r Hr) as [_ (f & Hf & Hlt)]. specialize (Hge r Hr).
  fold n in Hlt. unfold fold_index in Hge. rewrite Hf in Hge.
  exists f. split; [done|]. split; [lia|].
  assert (Hidx : fold_index r = f) by (unfold fold_index; by rewrite Hf).
  simpl. rewrite Hidx.
  destruct (split_vector_position n f) as (Hl & Hv & Ht & Hone); [lia|].
  repeat split; try done.
  - intros H0. apply Z.mod_small. lia.
  - intros H0. symmetry. apply Z.mod_unique with (q := -1); lia.
Qed.

Lemma split_vector_wraps_witness :
  exists recs n,
    fst (parse dir_repeated (__init__ "/data")) = Ok recs /\
    num_folds dir_repeated (__init__ "/data")
    = (Ok (Some n), snd (can_parse dir_repeated (__init__ "/data"))) /\
    Forall2 (fun r rec =>
               exists f,
                 row_fold r = CInt f /\ - n <= f < n /\
                 length (cv_folds rec) = Z.to_nat n /\
                 cv_folds rec !! Z.to_nat (f mod n) = Some VALID /\
                 (forall j : nat, (j < Z.to_nat n)%nat ->
                                  j <> Z.to_nat (f mod n) ->
                                  cv_folds rec !! j = Some TRAIN) /\
                 length (filter (fun x => x = VALID) (cv_folds rec)) = 1%nat /\
                 (0 <= f -> f mod n = f) /\ (f < 0 -> f mod n = f + n))
            (table_rows dir_repeated) recs.
Proof.
  eexists. 
  destruct (split_vector_wraps dir_repeated "/data"
              (snd (can_parse dir_repeated (__init__ "/data")))
              _ eq_refl eq_refl) as (n & Hn & HF).
  exists n. split; [reflexivity|]. split; [exact Hn|exact HF].
Defined.

(** Folds -2 and 1 among two folds: the first row is held out in fold 0. *)
Example split_vectors_dir_repeated :
  exists recs,
    fst (parse dir_repeated (__init__ "/data")) = Ok recs /\
    cv_folds <$> recs = [[VALID; TRAIN]; [TRAIN; VALID]].
Proof. eexists. split; vm_compute; reflexivity. Qed.

(** ** The label map and the codes of the rows *)

Lemma foldl_add_label_some (rows : list row) :
  forall (m : gmap cell cell) (l : cell),
    m !! l = None ->
    (exists r, r ∈ rows /\ row_label r = l) ->
    exists r0, r0 ∈ rows /\ row_label r0 = l /\
               foldl add_label m rows !! l = Some (row_label_enum r0).
Proof.
  induction rows as [|r rows IH]; intros m l Hm (r1 & Hr1 & Hl).
  - by apply elem_of_nil in Hr1.
  - simpl. destruct (decide (row_label r = l)) as [E|E].
    + exists r. split; [apply elem_of_cons; by left|]. split; [done|].
      apply foldl_add_label_keep. unfold add_label.
      rewrite E, decide_True by done. apply lookup_insert_eq.
    + apply elem_of_cons in Hr1 as [->|Hr1]; [done|].
      destruct (IH (add_label m r) l) as (r0 & Hr0 & Hl0 & Hlook).
      * unfold add_label. destruct (decide (m !! row_label r = None)); [|done].
        by rewrite lookup_insert_ne.
      * eauto.
      * exists r0. split; [apply elem_of_cons; by right|done].
Qed.

(** X5: after a successful validation, the map [label_map] returns gives
    for the label of every row the code of that row exactly when the table
    is consistent, that is when two rows with the same label always have
    the same code.  The same holds of the records [parse] returns,
    whenever it returns: every record's numeric label is what the map
    gives for its nominal label exactly when the table is consistent. *)
Theorem label_map_agrees_iff_consistent (d : DatasetDir) (b : string)
    (p' : KoeParser) :
  can_parse d (__init__ b) = (Ok true, p') ->
  exists m : gmap cell cell,
    label_map d (__init__ b) = (Ok (Some m), p') /\
    ((forall r, r ∈ table_rows d -> m !! row_label r = Some (row_label_enum r))
     <->
     (forall r1 r2, r1 ∈ table_rows d -> r2 ∈ table_rows d ->
                    row_label r1 = row_label r2 ->
                    row_label_enum r1 = row_label_enum r2)) /\
    (forall recs,
        fst (parse d (__init__ b)) = Ok recs ->
        ((forall rec, rec ∈ recs ->
                      m !! label_nominal rec = Some (label_numeric rec))
         <->
         (forall r1 r2, r1 ∈ table_rows d -> r2 ∈ table_rows d ->
                        row_label r1 = row_label r2 ->
                        row_label_enum r1 = row_label_enum r2))).
Proof.
  intros H.
  destruct (can_parse_true_inv d (__init__ b) p' eq_refl H)
    as (df & Hdf & Hh & Ha & Hall & ->).
  exists (foldl add_label ∅ (table_rows d)).
  split; [by rewrite (label_map_after d _ _ H)|].
  assert (Hiff :
    (forall r, r ∈ table_rows d ->
               foldl add_label ∅ (table_rows d) !! row_label r
               = Some (row_label_enum r))
    <->
    (forall r1 r2, r1 ∈ table_rows d -> r2 ∈ table_rows d ->
                   row_label r1 = row_label r2 ->
                   row_label_enum r1 = row_label_enum r2)).
  { split.
    - intros Hm r1 r2 Hr1 Hr2 Hl.
      pose proof (Hm r1 Hr1) as H1. pose proof (Hm r2 Hr2) as H2.
      rewrite Hl in H1. congruence.
    - intros Hc r Hr.
      destruct (foldl_add_label_some (table_rows d) ∅ (row_label r))
        as (r0 & Hr0 & Hl0 & Hlook); [apply lookup_empty|eauto|].
      rewrite Hlook. f_equal. by apply Hc. }
  split; [exact Hiff|].
  intros recs Hp. rewrite <- Hiff.
  rewrite (parse_after d _ _ (table_rows d) H) in Hp by done.
  change (_basedir (__init__ b)) with b in *.
  destruct (in_range_or_below (foldl bump_fold 0 (table_rows d) + 1)
              (table_rows d)) as [Hge|Hex].
  2:{ rewrite (parse_validated_below d b df Ha Hall Hex) in Hp. done. }
  rewrite (parse_validated_in_range d b df Ha Hall Hge) in Hp.
  simpl in Hp. injection Hp as <-. split.
  - intros Hrec r Hr.
    apply (Hrec (instance_of b (foldl bump_fold 0 (table_rows d) + 1) r)).
    apply list_elem_of_fmap. eauto.
  - intros Hrow rec Hrec.
    apply list_elem_of_fmap in Hrec as (r & -> & Hr). simpl. by apply Hrow.
Qed.

Lemma label_map_agrees_iff_consistent_witness :
  exists m : gmap cell cell,
    label_map dir_three (__init__ "/data")
    = (Ok (Some m), snd (can_parse dir_three (__init__ "/data"))) /\
    ((forall r, r ∈ table_rows dir_three ->
                m !! row_label r = Some (row_label_enum r))
     <->
     (forall r1 r2, r1 ∈ table_rows dir_three -> r2 ∈ table_rows dir_three ->
                    row_label r1 = row_label r2 ->
                    row_label_enum r1 = row_label_enum r2)) /\
    (forall recs,
        fst (parse dir_three (__init__ "/data")) = Ok recs ->
        ((forall rec, rec ∈ recs ->
                      m !! label_nominal rec = Some (label_numeric rec))
         <->
         (forall r1 r2, r1 ∈ table_rows dir_three -> r2 ∈ table_rows dir_three ->
                        row_label r1 = row_label r2 ->
                        row_label_enum r1 = row_label_enum r2))).
Proof.
  apply (label_map_agrees_iff_consistent dir_three "/data").
  vm_compute. reflexivity.
Defined.

(** The second row of the example has label [dog] and code 9; the map
    gives 5 for [dog]. *)
Example label_map_disagrees_dir_three :
  exists (m : gmap cell cell) recs rec,
    fst (label_map dir_three (__init__ "/data")) = Ok (Some m) /\
    fst (parse dir_three (__init__ "/data")) = Ok recs /\
    recs !! 1%nat = Some rec /\
    label_numeric rec = CInt 9 /\
    m !! label_nominal rec = Some (CInt 5).
Proof.
  do 3 eexists. split; [vm_compute; reflexivity|].
  split; [vm_compute; reflexivity|].
  split; [reflexivity|]. split; reflexivity.
Qed.

(** ** What of the directory validation looks at *)

Lemma wav_file_names_cells (d1 d2 : DatasetDir) :
  audio_file_names d1 = audio_file_names d2 ->
  (list_to_set (CStr <$> wav_file_names d1) : gset cell)
  = list_to_set (CStr <$> wav_file_names d2).
Proof.
  intros E. by rewrite !list_to_set_CStr, !wav_file_names_set, E.
Qed.

Lemma can_parse_same_audio_set (d1 d2 : DatasetDir) (p : KoeParser) :
  metadata_tsv d1 = metadata_tsv d2 ->
  audio_file_names d1 = audio_file_names d2 ->
  can_parse d1 p = can_parse d2 p.
Proof.
  intros Hm Ha. unfold can_parse.
  rewrite Hm. by rewrite (wav_file_names_cells d1 d2 Ha).
Qed.

(** X6: every method looks at the directory only through the parsed
    metadata table and the set of names of its audio files.  Two
    directory contents with the same table and the same set of audio file
    names (entries listed in another order, other files, directories
    whose name ends in [.wav]) give the same result and the same object,
    from any state of the parser. *)
Theorem methods_depend_on_audio_set (m : method) (d1 d2 : DatasetDir)
    (p : KoeParser) :
  metadata_tsv d1 = metadata_tsv d2 ->
  audio_file_names d1 = audio_file_names d2 ->
  call m d1 p = call m d2 p.
Proof.
  intros Hm Ha.
  pose proof (can_parse_same_audio_set d1 d2 p Hm Ha) as E.
  destruct m; unfold call, num_instances, num_folds, label_map, parse,
    require_can_parse, bind; by rewrite E.
Qed.

Lemma methods_depend_on_audio_set_witness :
  call m_parse dir_three (__init__ "/data")
  = call m_parse
      (mkDir [mkEntry "notes.txt" true; mkEntry "b.wav" true;
              mkEntry "a.wav" true; mkEntry "x.wav" false;
              mkEntry "c.WAV" true; mkEntry "a.wav" true]
             (Some df_three))
      (__init__ "/data").
Proof.
  apply (methods_depend_on_audio_set m_parse).
  - reflexivity.
  - vm_compute. reflexivity.
Defined.

(** ** Which directory entries are audio files *)

Lemma substring_all (s : string) : String.substring 0 (String.length s) s = s.
Proof. induction s as [|c s IH]; simpl; [done|]. by rewrite IH. Qed.

Lemma endswith_app (t suf : string) : endswith (String.append t suf) suf = true.
Proof.
  unfold endswith. induction t as [|c t IH]; simpl.
  - rewrite Nat.leb_refl, Nat.sub_diag, substring_all. simpl.
    apply String.eqb_refl.
  - apply andb_true_iff in IH as [Hle Heq]. apply Nat.leb_le in Hle.
    apply andb_true_iff. split; [apply Nat.leb_le; lia|].
    rewrite Nat.sub_succ_l by done. exact Heq.
Qed.

Lemma endswith_inv (s suf : string) :
  endswith s suf = true -> exists t, s = String.append t suf.
Proof.
  unfold endswith. induction s as [|c s IH]; simpl; intros H.
  - apply andb_true_iff in H as [Hle Heq]. apply Nat.leb_le in Hle.
    destruct suf; simpl in Hle; [|lia]. by exists EmptyString.
  - apply andb_true_iff in H as [Hle Heq]. apply Nat.leb_le in Hle.
    destruct (decide (String.length suf <= String.length s)%nat) as [Hk|Hk].
    + rewrite Nat.sub_succ_l in Heq by done.
      destruct IH as (t & ->).
      { apply andb_true_iff. split; [by apply Nat.leb_le|done]. }
      by exists (String c t).
    + assert (E : String.length suf = S (String.length s)) by lia.
      rewrite E, Nat.sub_diag in Heq.
      change (String.substring 0 (S (String.length s)) (String c s))
        with (String.substring 0 (String.length (String c s)) (String c s))
        in Heq.
      rewrite substring_all in Heq. apply String.eqb_eq in Heq.
      exists EmptyString. by rewrite <- Heq.
Qed.

Lemma lower_app (s t : string) :
  lower (String.append s t) = String.append (lower s) (lower t).
Proof. induction s as [|c s IH]; simpl; [done|]. by rewrite IH. Qed.

Lemma lower_app_inv (s t u : string) :
  lower s = String.append t u ->
  exists s1 s2, s = String.append s1 s2 /\ lower s1 = t /\ lower s2 = u.
Proof.
  revert s. induction t as [|c t IH]; intros s H; simpl in H.
  - by exists EmptyString, s.
  - destruct s as [|c' s]; simpl in H; [done|].
    injection H as Hc Hs. destruct (IH s Hs) as (s1 & s2 & -> & H1 & H2).
    exists (String c' s1), s2. simpl. by rewrite Hc, H1.
Qed.

(** X7: an entry of the directory counts as an audio file exactly when it
    is a regular file and its name ends with an extension that is [.wav]
    once its capitals are lowered: [.wav], [.WAV], [.Wav] and so on, the
    name that is the bare extension included.  A directory never counts,
    whatever its name. *)
Theorem is_audio_file_iff (e : DirEntry) :
  is_audio_file e = true <->
  is_file e = true /\
  exists stem ext, name e = String.append stem ext /\ lower ext = ".wav".
Proof.
  unfold is_audio_file. rewrite andb_true_iff. split.
  - intros [Hf He]. split; [done|].
    destruct (endswith_inv _ _ He) as (t & Ht).
    destruct (lower_app_inv _ _ _ Ht) as (s1 & s2 & Hn & _ & H2). eauto.
  - intros [Hf (stem & ext & -> & Hl)]. split; [done|].
    rewrite lower_app, Hl. apply endswith_app.
Qed.

Example is_audio_file_examples :
  is_audio_file (mkEntry "rec01.WaV" true) = true /\
  is_audio_file (mkEntry ".wav" true) = true /\
  is_audio_file (mkEntry "rec01.wav" false) = false /\
  is_audio_file (mkEntry "rec01.wav.bak" true) = false /\
  is_audio_file (mkEntry "wav" true) = false /\
  is_audio_file (mkEntry "metadata.tsv" true) = false.
Proof. repeat split. Qed.

(** ** A type error is raised again by every call *)

Lemma call_raise (m : method) (d : DatasetDir) (p p' : KoeParser) (e : exn) :
  can_parse d p = (Raise e, p') -> call m d p = (Raise e, p').
Proof.
  intros H. destruct m; unfold call, num_instances, num_folds, label_map,
    parse, require_can_parse, bind; by rewrite H.
Qed.

Lemma run_type_error_unset (d : DatasetDir) (ms : list method) :
  ~ structural_mismatch d ->
  Exists (fun r => is_int (row_fold r) = false) (table_rows d) ->
  forall p, _can_parse_cache p = None ->
            _can_parse_cache (run (in_dir d ms) p) = None.
Proof.
  intros Hm Hex. induction ms as [|m ms IH]; intros p Hc; simpl; [done|].
  apply IH. rewrite call_state.
  destruct (can_parse_type_error d p Hc Hm Hex) as (p' & -> & Hc'). done.
Qed.

(** X8: in a directory that has a metadata file with the expected header
    and the names of the audio files, but a fold cell that is a string,
    every call of every method raises a [TypeError], however many calls
    were made on the parser before: the failure is never turned into the
    [IOError] of the accessors, and the result cache stays unset, so each
    call validates anew. *)
Theorem type_error_every_call (d : DatasetDir) (b : string)
    (ms : list method) (m : method) :
  ~ structural_mismatch d ->
  Exists (fun r => is_int (row_fold r) = false) (table_rows d) ->
  fst (call m d (run (in_dir d ms) (__init__ b))) = Raise TypeError /\
  _can_parse_cache (snd (call m d (run (in_dir d ms) (__init__ b)))) = None.
Proof.
  intros Hm Hex.
  pose proof (run_type_error_unset d ms Hm Hex (__init__ b) eq_refl) as Hc.
  destruct (can_parse_type_error d _ Hc Hm Hex) as (p' & Hp' & Hc').
  by rewrite (call_raise m d _ p' TypeError Hp').
Qed.

Lemma type_error_every_call_witness :
  fst (call m_num_instances dir_string_fold
         (run (in_dir dir_string_fold [m_can_parse; m_parse])
              (__init__ "/data")))
  = Raise TypeError /\
  _can_parse_cache
    (snd (call m_num_instances dir_string_fold
            (run (in_dir dir_string_fold [m_can_parse; m_parse])
                 (__init__ "/data"))))
  = None.
Proof.
  apply (type_error_every_call dir_string_fold "/data"
           [m_can_parse; m_parse] m_num_instances).
  - exact dir_string_fold_agrees.
  - vm_compute. apply Exists_cons_hd. reflexivity.
Defined.

(** ** The order of the rows *)

Lemma foldl_bump_fold_perm (rows1 rows2 : list row) :
  rows1 ≡ₚ rows2 -> foldl bump_fold 0 rows1 = foldl bump_fold 0 rows2.
Proof.
  assert (G : forall l1 l2 : list row, l1 ≡ₚ l2 ->
                foldl bump_fold 0 l1 <= foldl bump_fold 0 l2).
  { intros l1 l2 Hp.
    destruct (foldl_bump_fold_attained l1 0) as [E|(r & Hr & Hf)].
    - rewrite E. apply foldl_bump_fold_ge.
    - rewrite Hp in Hr. by eapply foldl_bump_fold_upper. }
  intros Hp. apply Z.le_antisymm; apply G; [done|by symmetry].
Qed.

(** X9: [num_folds] and [num_instances] do not depend on the order of the
    rows of the table: two data sets that pass validation and whose tables
    hold the same rows in different orders have the same fold count and
    the same instance count. *)
Theorem counts_ignore_row_order (d1 d2 : DatasetDir) (b1 b2 : string)
    (p1 p2 : KoeParser) :
  can_parse d1 (__init__ b1) = (Ok true, p1) ->
  can_parse d2 (__init__ b2) = (Ok true, p2) ->
  table_rows d1 ≡ₚ table_rows d2 ->
  fst (num_folds d1 (__init__ b1)) = fst (num_folds d2 (__init__ b2)) /\
  fst (num_instances d1 (__init__ b1)) = fst (num_instances d2 (__init__ b2)).
Proof.
  intros H1 H2 Hp.
  destruct (can_parse_true_inv d1 (__init__ b1) p1 eq_refl H1)
    as (df1 & _ & _ & _ & _ & ->).
  destruct (can_parse_true_inv d2 (__init__ b2) p2 eq_refl H2)
    as (df2 & _ & _ & _ & _ & ->).
  rewrite (num_folds_after d1 _ _ H1), (num_folds_after d2 _ _ H2).
  rewrite (num_instances_after d1 _ _ (table_rows d1) H1) by done.
  rewrite (num_instances_after d2 _ _ (table_rows d2) H2) by done.
  simpl. rewrite (foldl_bump_fold_perm _ _ Hp).
  by rewrite (Permutation_length Hp).
Qed.

Lemma counts_ignore_row_order_witness :
  fst (num_folds dir_three (__init__ "/data"))
  = fst (num_folds dir_three_reordered (__init__ "/data")) /\
  fst (num_instances dir_three (__init__ "/data"))
  = fst (num_instances dir_three_reordered (__init__ "/data")).
Proof.
  eapply (counts_ignore_row_order dir_three dir_three_reordered).
  - vm_compute. reflexivity.
  - vm_compute. reflexivity.
  - change (table_rows dir_three_reordered)
      with ([(CInt 2, CStr "b.wav", CStr "dog", CInt 9, CInt 2);
             (CInt 3, CStr "c.WAV", CStr "cat", CInt 1, CInt 1)]
            ++ [(CInt 1, CStr "a.wav", CStr "dog", CInt 5, CInt 0)]).
    change (table_rows dir_three)
      with ([(CInt 1, CStr "a.wav", CStr "dog", CInt 5, CInt 0)]
            ++ [(CInt 2, CStr "b.wav", CStr "dog", CInt 9, CInt 2);
                (CInt 3, CStr "c.WAV", CStr "cat", CInt 1, CInt 1)]).
    apply Permutation_app_comm.
Defined.

(** The label map does depend on the order: with the rows reordered the
    first code of [dog] is 9. *)
Example label_map_dir_three_reordered :
  exists m : gmap cell cell,
    fst (label_map dir_three_reordered (__init__ "/data")) = Ok (Some m) /\
    m !! CStr "dog" = Some (CInt 9).
Proof. eexists. split; [vm_compute; reflexivity|reflexivity]. Qed.
